(** * Entity extraction and evaluation for legal documents: a shallow embedding

    The development follows the Python sources
      - [src/ner.py]          ([extract_entities]),
      - [src/custom_ner.py]   ([extract_custom_entities]),
      - [src/combined_ner.py] ([extract_all_entities]),
      - [src/evaluation.py]   ([NEREvaluator]),
      - [src/extract_text.py], [src/analyze_document.py] (the grouping of the
        entities by type),
      - [src/llm.py]          ([LLMProcessor.extract_entities],
        [LLMProcessor.save_docx_document]),
      - [src/ocr.py]          ([OCRProcessor.process_image]).

    Python values are modelled as follows.
      - A [str] is the list of its code points ([pystr]); [py "abc"] writes a
        literal.
      - Character offsets are Python ints, hence [Z].
      - A [set] is a [gset], a [dict] whose iteration order does not matter is
        a [gmap]; a dict that is written to a file keeps its insertion order
        and is an association list.
      - The floats returned by scikit-learn are modelled by exact rationals in
        lowest terms ([Q] under [Qred]).
      - A call that may raise returns a [Result]. *)

From Stdlib Require Import ZArith NArith QArith Qreduction List Ascii String Lia Lqa.
From stdpp Require Import base gmap sets list strings.

Set Warnings "-clear-no-such-hyp,-register-all".

Local Open Scope Z_scope.

(** ** Python strings and exceptions *)

Definition pystr := list N.

Fixpoint py (s : string) : pystr :=
  match s with
  | EmptyString => []
  | String a r => N_of_ascii a :: py r
  end.

Arguments py : simpl never.

Inductive Exn :=
  | FileNotFoundError
  | FileExistsError
  | IsADirectoryError
  | JSONDecodeError
  | OSError
  | TypeError
  | KeyError
  | AttributeError
  | Unmodelled.

Inductive Result (A : Type) :=
  | Ok (a : A)
  | Raise (e : Exn).

Arguments Ok {A} a.
Arguments Raise {A} e.

#[global] Instance Result_bind : MBind Result := fun A B k r =>
  match r with
  | Ok a => k a
  | Raise e => Raise e
  end.

(** The dict [{"entity": ..., "type": ...}] that every extractor produces and
    the evaluator consumes. *)
Record Entity := { entity : pystr; type : pystr }.

#[global] Instance Entity_eq_dec : EqDecision Entity.
Proof. solve_decision. Defined.

(** * Part I: extraction ([ner.py], [custom_ner.py], [combined_ner.py]) *)

Module NER.

(** One element of spaCy's [doc.ents]. *)
Record Ent := {
  start_char : Z;
  end_char : Z;
  label_ : pystr;
  text : pystr
}.

(** One [re.Match] of [pattern.finditer(text)]. *)
Record Match := {
  m_start : Z;
  m_end : Z;
  m_group : pystr
}.

(** A loaded spaCy pipeline, applied to a text, gives [doc.ents]. *)
Definition Model := pystr -> list Ent.

(** What the extractor asks of its environment: [spacy.load], which raises
    when the model cannot be loaded; [Path(p).exists()]; and, for a term [t],
    [re.compile(r'\b' + t + r'\b', re.IGNORECASE).finditer(text)]. *)
Record Env := {
  spacy_load : pystr -> Result Model;
  path_exists : pystr -> bool;
  finditer : pystr -> pystr -> list Match
}.

Definition Span := (Z * Z)%type.

(** [not (span[1] <= proc_span[0] or span[0] >= proc_span[1])] *)
Definition overlaps (span proc_span : Span) : bool :=
  negb ((span.2 <=? proc_span.1) || (span.1 >=? proc_span.2)).

Record State := {
  entities : list Entity;
  processed_spans : gset Span
}.

Definition init : State := {| entities := []; processed_spans := ∅ |}.

(** Body of [for ent in doc.ents]. *)
Definition step_ent (st : State) (ent : Ent) : State :=
  let span_id := (start_char ent, end_char ent) in
  if decide (span_id ∈ processed_spans st) then st
  else
    let spans := processed_spans st ∪ {[span_id]} in
    if decide (label_ ent = py "PERSON") then
      {| entities := entities st ++ [{| entity := text ent; type := py "Name" |}];
         processed_spans := spans |}
    else if decide (label_ ent = py "DATE") then
      {| entities := entities st ++ [{| entity := text ent; type := py "Date" |}];
         processed_spans := spans |}
    else if decide (label_ ent = py "MONEY") then
      {| entities := entities st ++ [{| entity := text ent; type := py "MonetaryAmount" |}];
         processed_spans := spans |}
    else {| entities := entities st; processed_spans := spans |}.

Definition legal_terms : list pystr :=
  map py
    ["trustee"; "beneficiary"; "executor"; "grantor"; "testator";
     "settlor"; "fiduciary"; "heir"; "legatee"; "probate"; "bequest";
     "devise"; "legacy"; "will"; "trust"; "estate"; "power of attorney"]%string.

(** The inner [for proc_span in processed_spans] with its [break]: the flag
    ends up true exactly when some recorded span overlaps, whatever the
    iteration order of the set. *)
Definition overlap_flag (span : Span) (spans : gset Span) : bool :=
  existsb (fun proc_span => overlaps span proc_span) (elements spans).

(** Body of [for match in pattern.finditer(text)]. *)
Definition step_match (st : State) (mt : Match) : State :=
  let span := (m_start mt, m_end mt) in
  let overlap := overlap_flag span (processed_spans st) in
  if negb overlap then
    {| entities := entities st ++ [{| entity := m_group mt; type := py "LegalTerm" |}];
       processed_spans := processed_spans st ∪ {[span]} |}
  else st.

Definition ner_pass (ents : list Ent) (st : State) : State :=
  fold_left step_ent ents st.

Definition lexicon_pass (env : Env) (txt : pystr) (st : State) : State :=
  fold_left (fun st term => fold_left step_match (finditer env term txt) st)
            legal_terms st.

(** The state in which [extract_entities] returns, for a loaded pipeline. *)
Definition run_extract (env : Env) (nlp : Model) (txt : pystr) : State :=
  lexicon_pass env txt (ner_pass (nlp txt) init).

(** [ner.extract_entities] *)
Definition extract_entities (env : Env) (txt : pystr) : Result (list Entity) :=
  nlp ← spacy_load env (py "en_core_web_lg");
  Ok (entities (run_extract env nlp txt)).

Definition CUSTOM_ENTITIES : list pystr :=
  map py ["CLIENT"; "ASSET"; "BENEFICIARY"; "LEGAL_CLAUSE"]%string.

(** [custom_ner.extract_custom_entities] *)
Definition extract_custom_entities (nlp : Model) (txt : pystr) : list Entity :=
  flat_map (fun ent =>
              if decide (label_ ent ∈ CUSTOM_ENTITIES)
              then [{| entity := text ent; type := label_ ent |}]
              else [])
           (nlp txt).

(** The [if custom_model_path.exists(): try: ... except Exception: ...]
    block of [extract_all_entities]: the value of [custom_entities] when the
    block is left. *)
Definition custom_block (env : Env) (txt custom_model_path : pystr) : list Entity :=
  if path_exists env custom_model_path then
    match spacy_load env custom_model_path with
    | Ok custom_nlp => extract_custom_entities custom_nlp txt
    | Raise _ => []
    end
  else [].

(** [combined_ner.extract_all_entities] *)
Definition extract_all_entities (env : Env) (txt custom_model_path : pystr)
  : Result (list Entity) :=
  standard_entities ← extract_entities env txt;
  let custom_entities := custom_block env txt custom_model_path in
  Ok (standard_entities ++ custom_entities).

(** *** Ghost trace

    The returned dicts carry neither the span at which an entity was matched
    nor its source.  The trace below re-runs the same steps and keeps both
    for every appended entity; [trace_erasure] shows that forgetting them
    gives back the list the code returns. *)

Inductive Source := Statistical | DomainTrained | Lexicon.

#[global] Instance Source_eq_dec : EqDecision Source.
Proof. solve_decision. Defined.

Record Candidate := { src : Source; span : Span; ent : Entity }.

#[global] Instance Candidate_eq_dec : EqDecision Candidate.
Proof. solve_decision. Defined.

Record TState := {
  accepted : list Candidate;
  t_spans : gset Span
}.

Definition t_init : TState := {| accepted := []; t_spans := ∅ |}.

Definition ent_span (e : Ent) : Span := (start_char e, end_char e).
Definition match_span (mt : Match) : Span := (m_start mt, m_end mt).

(** The output type of a spaCy label, as the [if]/[elif] chain assigns it. *)
Definition standard_type (label : pystr) : option pystr :=
  if decide (label = py "PERSON") then Some (py "Name")
  else if decide (label = py "DATE") then Some (py "Date")
  else if decide (label = py "MONEY") then Some (py "MonetaryAmount")
  else None.

Definition stat_entry (e : Ent) : option Candidate :=
  ty ← standard_type (label_ e);
  Some {| src := Statistical; span := ent_span e;
          ent := {| entity := text e; type := ty |} |}.

Definition t_step_ent (st : TState) (e : Ent) : TState :=
  if decide (ent_span e ∈ t_spans st) then st
  else
    {| accepted := accepted st ++ option_list (stat_entry e);
       t_spans := t_spans st ∪ {[ent_span e]} |}.

Definition lexicon_entry (mt : Match) : Candidate :=
  {| src := Lexicon; span := match_span mt;
     ent := {| entity := m_group mt; type := py "LegalTerm" |} |}.

Definition t_step_match (st : TState) (mt : Match) : TState :=
  if negb (overlap_flag (match_span mt) (t_spans st)) then
    {| accepted := accepted st ++ [lexicon_entry mt];
       t_spans := t_spans st ∪ {[match_span mt]} |}
  else st.

(** All regex matches in the order in which the two nested loops meet them. *)
Definition lexicon_candidates (env : Env) (txt : pystr) : list Match :=
  flat_map (fun term => finditer env term txt) legal_terms.

Definition t_run_extract (env : Env) (nlp : Model) (txt : pystr) : TState :=
  fold_left t_step_match (lexicon_candidates env txt)
            (fold_left t_step_ent (nlp txt) t_init).

Definition custom_entry (e : Ent) : Candidate :=
  {| src := DomainTrained; span := ent_span e;
     ent := {| entity := text e; type := label_ e |} |}.

Definition t_extract_custom (nlp : Model) (txt : pystr) : list Candidate :=
  flat_map (fun e => if decide (label_ e ∈ CUSTOM_ENTITIES) then [custom_entry e] else [])
           (nlp txt).

Definition t_custom_block (env : Env) (txt custom_model_path : pystr) : list Candidate :=
  if path_exists env custom_model_path then
    match spacy_load env custom_model_path with
    | Ok custom_nlp => t_extract_custom custom_nlp txt
    | Raise _ => []
    end
  else [].

(** The trace of [extract_all_entities] once the standard pipeline [nlp] is
    loaded. *)
Definition t_extract_all (env : Env) (nlp : Model) (txt custom_model_path : pystr)
  : list Candidate :=
  accepted (t_run_extract env nlp txt) ++ t_custom_block env txt custom_model_path.

Definition erase (t : TState) : State :=
  {| entities := map ent (accepted t); processed_spans := t_spans t |}.

(** Every candidate of the three sources for a text: the statistical
    entities that have an output type, the custom model's entities with a
    custom label, and the regex matches. *)
Definition all_candidates (env : Env) (nlp custom_nlp : Model) (txt : pystr)
  : list Candidate :=
  flat_map (fun e => option_list (stat_entry e)) (nlp txt)
  ++ t_extract_custom custom_nlp txt
  ++ map lexicon_entry (lexicon_candidates env txt).

(** Two entries of a list, at different positions, never overlap. *)
Definition no_overlap (l : list Candidate) : Prop :=
  forall i j a b, i <> j -> l !! i = Some a -> l !! j = Some b ->
    overlaps (span a) (span b) = false.

(** No two different spans of the set overlap. *)
Definition pairwise_disjoint (spans : gset Span) : Prop :=
  forall p q, p ∈ spans -> q ∈ spans -> p <> q -> overlaps p q = false.

(** What spaCy guarantees of [doc.ents]: entities at different spans do not
    overlap. *)
Definition ents_disjoint (ents : list Ent) : Prop :=
  forall e1 e2, e1 ∈ ents -> e2 ∈ ents -> ent_span e1 <> ent_span e2 ->
    overlaps (ent_span e1) (ent_span e2) = false.

(** The invariant of the two loops, on the trace. *)
Definition tinv (t : TState) : Prop :=
  pairwise_disjoint (t_spans t)
  /\ (forall c, c ∈ accepted t -> span c ∈ t_spans t)
  /\ no_overlap (accepted t).

(** The fixed priority of the three sources (smaller wins). *)
Definition priority (s : Source) : nat :=
  match s with
  | Statistical => 0
  | DomainTrained => 1
  | Lexicon => 2
  end.

(** The priority rule for a list of candidates and an output: of two
    overlapping candidates of different priority the higher one is in the
    output and the lower one is not. *)
Definition priority_respected (cands out : list Candidate) : Prop :=
  forall c1 c2, c1 ∈ cands -> c2 ∈ cands ->
    (priority (src c1) < priority (src c2))%nat ->
    overlaps (span c1) (span c2) = true ->
    c1 ∈ out /\ c2 ∉ out.

(** A checker for [ents_disjoint]. *)
Definition ents_disjointb (ents : list Ent) : bool :=
  forallb (fun e1 =>
    forallb (fun e2 =>
      bool_decide (ent_span e1 = ent_span e2)
      || negb (overlaps (ent_span e1) (ent_span e2))) ents) ents.

(** *** The regex on ASCII text

    [ascii_finditer term txt] computes the matches of the pattern
    [\bterm\b] under [re.IGNORECASE] for a text and a term of ASCII
    characters only; it is what the examples run on.  The theorems are stated
    for an arbitrary [finditer]. *)

Definition is_word (c : N) : bool :=
  ((48 <=? c) && (c <=? 57) || (65 <=? c) && (c <=? 90) ||
   (97 <=? c) && (c <=? 122) || (c =? 95))%N.

Definition lower (c : N) : N :=
  if ((65 <=? c) && (c <=? 90))%N then (c + 32)%N else c.

Definition word_opt (c : option N) : bool :=
  match c with
  | Some c => is_word c
  | None => false
  end.

(** [\b] between the characters [prev] and [next]. *)
Definition boundary (prev next : option N) : bool :=
  xorb (word_opt prev) (word_opt next).

(** [term] matches here, with a word boundary after it; [prev] is the
    character before the current position. *)
Fixpoint match_here (term : pystr) (prev : option N) (s : pystr) : bool :=
  match term with
  | [] => boundary prev (head s)
  | t :: term' =>
      match s with
      | [] => false
      | c :: s' => (lower c =? lower t)%N && match_here term' (Some c) s'
      end
  end.

Fixpoint scan (term : pystr) (pos : Z) (prev : option N) (skip : nat) (s : pystr)
  : list Match :=
  match s with
  | [] => []
  | c :: s' =>
      match skip with
      | S k => scan term (pos + 1) (Some c) k s'
      | O =>
          if boundary prev (Some c) && match_here term prev s then
            {| m_start := pos; m_end := pos + Z.of_nat (length term);
               m_group := take (length term) s |}
            :: scan term (pos + 1) (Some c) (length term - 1) s'
          else scan term (pos + 1) (Some c) 0 s'
      end
  end.

Definition ascii_finditer (term txt : pystr) : list Match :=
  match term with
  | [] => []
  | _ => scan term 0 None 0 txt
  end.

(** *** Example data *)

Definition ex_text : pystr := py "John Smith signed the trust agreement.".
Definition ex_path : pystr := py "../models/custom_ner".

Definition john : Ent :=
  {| start_char := 0; end_char := 10; label_ := py "PERSON"; text := py "John Smith" |}.
Definition john_client : Ent :=
  {| start_char := 0; end_char := 10; label_ := py "CLIENT"; text := py "John Smith" |}.

Definition ex_nlp : Model := fun _ => [john].
Definition ex_custom_nlp : Model := fun _ => [john_client].

(** Both models are installed. *)
Definition ex_env : Env :=
  {| spacy_load := fun name =>
       if decide (name = py "en_core_web_lg") then Ok ex_nlp
       else if decide (name = ex_path) then Ok ex_custom_nlp
       else Raise OSError;
     path_exists := fun p => bool_decide (p = ex_path);
     finditer := ascii_finditer |}.

(** The custom model was never trained: nothing exists at its path. *)
Definition ex_env_absent : Env :=
  {| spacy_load := fun name =>
       if decide (name = py "en_core_web_lg") then Ok ex_nlp else Raise OSError;
     path_exists := fun _ => false;
     finditer := ascii_finditer |}.

End NER.

(** * Part II: the JSON files of the evaluator ([json], [os])

    [NEREvaluator.save_test_dataset] and [load_test_dataset] go through
    [json.dump(..., indent=2)] and [json.load].  Both are modelled on the
    characters they write and read.  JSON numbers are outside the model: the
    decoder answers [Raise Unmodelled] where Python would build an int or a
    float. *)

Module Json.

(** The Python values that [json.load] builds, numbers apart.  A dict keeps
    its insertion order; its keys are strings. *)
Inductive PyObj :=
  | PNone
  | PBool (b : bool)
  | PStr (s : pystr)
  | PList (l : list PyObj)
  | PDict (d : list (pystr * PyObj)).

(** **** Encoder: [json.JSONEncoder(indent=2, ensure_ascii=True)] *)

(** One lower-case hexadecimal digit, as ['{0:04x}'.format] writes it. *)
Definition hex_digit (d : N) : N :=
  (if d <? 10 then 48 + d else 87 + d)%N.

(** ['\\u{0:04x}'.format(n)] for [n < 0x10000]. *)
Definition u_escape (n : N) : pystr :=
  [92; 117;
   hex_digit (n / 4096 mod 16); hex_digit (n / 256 mod 16);
   hex_digit (n / 16 mod 16); hex_digit (n mod 16)]%N.

(** The replacement of one character by [py_encode_basestring_ascii]:
    [ESCAPE_ASCII] matches a backslash, a double quote and everything outside
    the range from the space to the tilde. *)
Definition escape_char (c : N) : pystr :=
  (if c =? 34 then [92; 34]
   else if c =? 92 then [92; 92]
   else if c =? 10 then [92; 110]
   else if c =? 13 then [92; 114]
   else if c =? 9 then [92; 116]
   else if c =? 12 then [92; 102]
   else if c =? 8 then [92; 98]
   else if (32 <=? c) && (c <=? 126) then [c]
   else if c <? 65536 then u_escape c
   else
     let n := c - 65536 in
     let s1 := N.lor 55296 (N.land (N.shiftr n 10) 1023) in
     let s2 := N.lor 56320 (N.land n 1023) in
     u_escape s1 ++ u_escape s2)%N.

Definition encode_basestring_ascii (s : pystr) : pystr :=
  [34%N] ++ flat_map escape_char s ++ [34%N].

(** ['\n' + ' ' * (2 * level)] *)
Definition newline_indent (level : nat) : pystr :=
  10%N :: repeat 32%N (2 * level).

(** [_iterencode(o, level)], its chunks concatenated.  The first item of
    a list or dict follows the opening bracket and a new line; every later
    item follows a comma and a new line. *)
Fixpoint iterencode (level : nat) (o : PyObj) : pystr :=
  match o with
  | PNone => py "null"
  | PBool true => py "true"
  | PBool false => py "false"
  | PStr s => encode_basestring_ascii s
  | PList [] => py "[]"
  | PList (v :: vs) =>
      [91%N] ++ newline_indent (S level) ++ iterencode (S level) v
      ++ flat_map (fun v => [44%N] ++ newline_indent (S level) ++ iterencode (S level) v) vs
      ++ newline_indent level ++ [93%N]
  | PDict [] => py "{}"
  | PDict (kv :: kvs) =>
      [123%N] ++ newline_indent (S level)
      ++ encode_basestring_ascii kv.1 ++ [58; 32]%N ++ iterencode (S level) kv.2
      ++ flat_map (fun kv => [44%N] ++ newline_indent (S level)
                             ++ encode_basestring_ascii kv.1 ++ [58; 32]%N
                             ++ iterencode (S level) kv.2) kvs
      ++ newline_indent level ++ [125%N]
  end.

(** The text that [json.dump(obj, f, indent=2)] writes. *)
Definition dumps (o : PyObj) : pystr := iterencode 0 o.

(** **** Decoder: [json.JSONDecoder().decode] *)

Definition is_ws (c : N) : bool :=
  ((c =? 32) || (c =? 9) || (c =? 10) || (c =? 13))%N.

(** [WHITESPACE.match(s, end).end()] *)
Fixpoint skip_ws (s : pystr) : pystr :=
  match s with
  | c :: r => if is_ws c then skip_ws r else s
  | [] => []
  end.

Definition hex_value (c : N) : option N :=
  (if (48 <=? c) && (c <=? 57) then Some (c - 48)
   else if (97 <=? c) && (c <=? 102) then Some (c - 87)
   else if (65 <=? c) && (c <=? 70) then Some (c - 55)
   else None)%N.

(** [_decode_uXXXX]: four hexadecimal digits. *)
Definition decode_hex4 (a b c d : N) : option N :=
  va ← hex_value a; vb ← hex_value b; vc ← hex_value c; vd ← hex_value d;
  Some (((va * 16 + vb) * 16 + vc) * 16 + vd)%N.

(** The [BACKSLASH] table. *)
Definition backslash (esc : N) : option N :=
  (if esc =? 34 then Some 34
   else if esc =? 92 then Some 92
   else if esc =? 47 then Some 47
   else if esc =? 98 then Some 8
   else if esc =? 102 then Some 12
   else if esc =? 110 then Some 10
   else if esc =? 114 then Some 13
   else if esc =? 116 then Some 9
   else None)%N.

Definition is_high (u : N) : bool := ((55296 <=? u) && (u <=? 56319))%N.
Definition is_low (u : N) : bool := ((56320 <=? u) && (u <=? 57343))%N.

(** [_append(char)], then on with the loop. *)
Definition push (c : N) (r : Result (pystr * pystr)) : Result (pystr * pystr) :=
  '(str, rest) ← r; Ok (c :: str, rest).

(** [py_scanstring(s, end, strict=True)], called just after the opening
    quote: the decoded string and what follows the closing quote. *)
Fixpoint scanstring (s : pystr) : Result (pystr * pystr) :=
  match s with
  | [] => Raise JSONDecodeError
  | c :: r =>
      if (c =? 34)%N then Ok ([], r)
      else if (c =? 92)%N then
        match r with
        | [] => Raise JSONDecodeError
        | esc :: r1 =>
            if (esc =? 117)%N then
              match r1 with
              | h1 :: h2 :: h3 :: h4 :: r2 =>
                  match decode_hex4 h1 h2 h3 h4 with
                  | None => Raise JSONDecodeError
                  | Some uni =>
                      match r2 with
                      | b :: u :: r3 =>
                          if is_high uni && (b =? 92)%N && (u =? 117)%N then
                            match r3 with
                            | g1 :: g2 :: g3 :: g4 :: r4 =>
                                match decode_hex4 g1 g2 g3 g4 with
                                | None => Raise JSONDecodeError
                                | Some uni2 =>
                                    if is_low uni2 then
                                      push (65536 + N.lor (N.shiftl (uni - 55296) 10)
                                                          (uni2 - 56320))%N
                                           (scanstring r4)
                                    else push uni (scanstring r2)
                                end
                            | _ => Raise JSONDecodeError
                            end
                          else push uni (scanstring r2)
                      | _ => push uni (scanstring r2)
                      end
                  end
              | _ => Raise JSONDecodeError
              end
            else
              match backslash esc with
              | Some ch => push ch (scanstring r1)
              | None => Raise JSONDecodeError
              end
        end
      else if (c <? 32)%N then Raise JSONDecodeError
      else push c (scanstring r)
  end.

(** [dict(pairs)], one pair at a time: a key met again keeps its place and
    takes the new value. *)
Fixpoint dict_set (d : list (pystr * PyObj)) (k : pystr) (v : PyObj)
  : list (pystr * PyObj) :=
  match d with
  | [] => [(k, v)]
  | (k', v') :: d' =>
      if decide (k' = k) then (k', v) :: d' else (k', v') :: dict_set d' k v
  end.

Definition dict_of_pairs (pairs : list (pystr * PyObj)) : list (pystr * PyObj) :=
  fold_left (fun d kv => dict_set d kv.1 kv.2) pairs [].

Definition starts_with (prefix s : pystr) : bool :=
  bool_decide (take (length prefix) s = prefix).

(** The first character of a JSON number, of [NaN], of [Infinity]. *)
Definition number_start (c : N) : bool :=
  ((c =? 45) || (48 <=? c) && (c <=? 57) || (c =? 78) || (c =? 73))%N.

(** [scan_once], [JSONArray] and [JSONObject].  The three call one another
    on ever shorter texts; [fuel] bounds the calls.  [loads] gives one unit
    of fuel per character and one more, which is enough for every text that
    [dumps] writes ([JsonFacts.loads_dumps]). *)
Fixpoint scan_once (fuel : nat) (s : pystr) {struct fuel} : Result (PyObj * pystr) :=
  match fuel with
  | O => Raise Unmodelled
  | S fuel =>
      match s with
      | [] => Raise JSONDecodeError
      | c :: r =>
          if (c =? 34)%N then
            '(str, rest) ← scanstring r; Ok (PStr str, rest)
          else if (c =? 123)%N then
            match skip_ws r with
            | c1 :: r1 =>
                if (c1 =? 125)%N then Ok (PDict [], r1)
                else if (c1 =? 34)%N then
                  '(pairs, rest) ← object_items fuel r1; Ok (PDict (dict_of_pairs pairs), rest)
                else Raise JSONDecodeError
            | [] => Raise JSONDecodeError
            end
          else if (c =? 91)%N then
            match skip_ws r with
            | c1 :: r1 =>
                if (c1 =? 93)%N then Ok (PList [], r1)
                else '(values, rest) ← array_items fuel (c1 :: r1); Ok (PList values, rest)
            | [] => Raise JSONDecodeError
            end
          else if starts_with (py "null") s then Ok (PNone, drop 4 s)
          else if starts_with (py "true") s then Ok (PBool true, drop 4 s)
          else if starts_with (py "false") s then Ok (PBool false, drop 5 s)
          else if number_start c then Raise Unmodelled
          else Raise JSONDecodeError
      end
  end
with array_items (fuel : nat) (s : pystr) {struct fuel} : Result (list PyObj * pystr) :=
  match fuel with
  | O => Raise Unmodelled
  | S fuel =>
      '(value, rest) ← scan_once fuel s;
      match skip_ws rest with
      | c :: r =>
          if (c =? 93)%N then Ok ([value], r)
          else if (c =? 44)%N then
            '(values, rest') ← array_items fuel (skip_ws r); Ok (value :: values, rest')
          else Raise JSONDecodeError
      | [] => Raise JSONDecodeError
      end
  end
with object_items (fuel : nat) (s : pystr) {struct fuel}
  : Result (list (pystr * PyObj) * pystr) :=
  match fuel with
  | O => Raise Unmodelled
  | S fuel =>
      '(key, rest) ← scanstring s;
      match skip_ws rest with
      | c :: r =>
          if (c =? 58)%N then
            '(value, rest1) ← scan_once fuel (skip_ws r);
            match skip_ws rest1 with
            | c1 :: r1 =>
                if (c1 =? 125)%N then Ok ([(key, value)], r1)
                else if (c1 =? 44)%N then
                  match skip_ws r1 with
                  | c2 :: r2 =>
                      if (c2 =? 34)%N then
                        '(pairs, rest') ← object_items fuel r2;
                        Ok ((key, value) :: pairs, rest')
                      else Raise JSONDecodeError
                  | [] => Raise JSONDecodeError
                  end
                else Raise JSONDecodeError
            | [] => Raise JSONDecodeError
            end
          else Raise JSONDecodeError
      | [] => Raise JSONDecodeError
      end
  end.

(** [json.loads(s)]: a leading byte-order mark is refused, white space may
    surround the value, anything after it is "Extra data". *)
Definition loads (s : pystr) : Result PyObj :=
  if bool_decide (head s = Some 65279%N) then Raise JSONDecodeError
  else
    '(obj, rest) ← scan_once (S (length s)) (skip_ws s);
    match skip_ws rest with
    | [] => Ok obj
    | _ => Raise JSONDecodeError
    end.

(** **** Strings that survive the escapes *)

(** A Python string holds code points below 0x110000. *)
Definition valid_str (s : pystr) : bool :=
  forallb (fun c => (c <? 1114112)%N) s.

(** No high surrogate is directly followed by a low surrogate. *)
Fixpoint pair_free (s : pystr) : bool :=
  match s with
  | c1 :: r =>
      match r with
      | c2 :: _ => negb (is_high c1 && is_low c2) && pair_free r
      | [] => true
      end
  | [] => true
  end.

Definition str_ok (s : pystr) : bool := valid_str s && pair_free s.

(** The strings of a value are [str_ok] and no dict has a key twice. *)
Fixpoint obj_ok (o : PyObj) : Prop :=
  match o with
  | PNone | PBool _ => True
  | PStr s => str_ok s = true
  | PList l => (fix all (l : list PyObj) : Prop :=
                  match l with
                  | [] => True
                  | v :: l' => obj_ok v /\ all l'
                  end) l
  | PDict d => NoDup (map fst d)
               /\ (fix all (l : list (pystr * PyObj)) : Prop :=
                     match l with
                     | [] => True
                     | kv :: l' => (str_ok kv.1 = true /\ obj_ok kv.2) /\ all l'
                     end) d
  end.

(** Fuel that is enough to read a value back. *)
Fixpoint need (o : PyObj) : nat :=
  match o with
  | PList l => S ((fix sum (l : list PyObj) : nat :=
                     match l with
                     | [] => O
                     | v :: l' => S (need v + sum l')
                     end) l)
  | PDict d => S ((fix sum (l : list (pystr * PyObj)) : nat :=
                     match l with
                     | [] => O
                     | kv :: l' => S (need kv.2 + sum l')
                     end) d)
  | _ => 1%nat
  end.

(** **** Notions used to state the round trip *)

(** What may follow a lone [\uXXXX] escape without being taken for its
    second half. *)
Definition next_ok (r2 : pystr) : Prop :=
  match r2 with
  | b :: u :: r3 =>
      if ((b =? 92) && (u =? 117))%N then
        match r3 with
        | g1 :: g2 :: g3 :: g4 :: _ =>
            match decode_hex4 g1 g2 g3 g4 with
            | Some uni2 => is_low uni2 = false
            | None => False
            end
        | _ => False
        end
      else True
  | _ => True
  end.

Definition need_items : list PyObj -> nat :=
  fix sum (l : list PyObj) : nat :=
    match l with
    | [] => O
    | v :: l' => S (need v + sum l')
    end.

Definition need_pairs : list (pystr * PyObj) -> nat :=
  fix sum (l : list (pystr * PyObj)) : nat :=
    match l with
    | [] => O
    | kv :: l' => S (need kv.2 + sum l')
    end.

Definition items_ok : list PyObj -> Prop :=
  fix all (l : list PyObj) : Prop :=
    match l with
    | [] => True
    | v :: l' => obj_ok v /\ all l'
    end.

Definition pairs_ok : list (pystr * PyObj) -> Prop :=
  fix all (l : list (pystr * PyObj)) : Prop :=
    match l with
    | [] => True
    | kv :: l' => (str_ok kv.1 = true /\ obj_ok kv.2) /\ all l'
    end.

(** The first character of an encoded value. *)
Definition value_start (c : N) : bool :=
  ((c =? 34) || (c =? 123) || (c =? 91) || (c =? 110) || (c =? 116) || (c =? 102))%N.

Definition reads_back (o : PyObj) : Prop :=
  forall level rest fuel, obj_ok o -> (need o <= fuel)%nat ->
    scan_once fuel (iterencode level o ++ rest) = Ok (o, rest).

End Json.

(** * Part III: the evaluator ([evaluation.py]) *)

Module Evaluation.
Import Json.

(** **** The operating system, as far as the evaluator sees it

    A path is the string given to [open]; two different strings are two
    different files.  Permissions, links and the directories above a
    directory are not modelled. *)

Record FS := {
  files : gmap pystr pystr;
  dirs : gset pystr
}.

Definition os_path_exists (fs : FS) (p : pystr) : bool :=
  bool_decide (is_Some (files fs !! p)) || bool_decide (p ∈ dirs fs).

Fixpoint drop_while (f : N -> bool) (s : pystr) : pystr :=
  match s with
  | c :: r => if f c then drop_while f r else s
  | [] => []
  end.

(** [s.rstrip('/')] *)
Definition rstrip_sep (s : pystr) : pystr :=
  reverse (drop_while (fun c => (c =? 47)%N) (reverse s)).

(** [posixpath.dirname]: the text up to the last slash, its trailing slashes
    removed unless it is made of slashes only. *)
Definition os_path_dirname (p : pystr) : pystr :=
  let head := reverse (drop_while (fun c => negb (c =? 47)%N) (reverse p)) in
  if forallb (fun c => (c =? 47)%N) head then head else rstrip_sep head.

(** [os.makedirs(name, exist_ok=True)]: [mkdir('')] fails with ENOENT, and
    [exist_ok] forgives an existing directory only. *)
Definition os_makedirs (fs : FS) (name : pystr) : Result FS :=
  match name with
  | [] => Raise FileNotFoundError
  | _ =>
      if bool_decide (is_Some (files fs !! name)) then Raise FileExistsError
      else Ok {| files := files fs; dirs := dirs fs ∪ {[name]} |}
  end.

(** [with open(p, 'w') as f: f.write(content)] *)
Definition open_write (fs : FS) (p content : pystr) : Result FS :=
  match p with
  | [] => Raise FileNotFoundError
  | _ =>
      if bool_decide (p ∈ dirs fs) || bool_decide (last p = Some 47%N)
      then Raise IsADirectoryError
      else Ok {| files := <[p := content]> (files fs); dirs := dirs fs |}
  end.

(** [with open(p, 'r') as f: f.read()] *)
Definition open_read (fs : FS) (p : pystr) : Result pystr :=
  match files fs !! p with
  | Some content => Ok content
  | None => if bool_decide (p ∈ dirs fs) then Raise IsADirectoryError
            else Raise FileNotFoundError
  end.

(** **** scikit-learn's binary scores with [zero_division=0] *)

Record Scores := { precision : Q; recall : Q; f1 : Q }.

Definition count_ones (y : list nat) : nat :=
  length (filter (fun v => Nat.eqb v 1) y).

(** The samples that are positive in both lists. *)
Definition tp_sum (y_true y_pred : list nat) : nat :=
  length (filter (fun tp => Nat.eqb tp.1 1 && Nat.eqb tp.2 1) (combine y_true y_pred)).

(** [_prf_divide]: the quotient, and 0 where the denominator is 0. *)
Definition prf_divide (num den : nat) : Q :=
  match den with
  | O => 0%Q
  | S _ => Qred (Z.of_nat num # Pos.of_nat den)
  end.

Definition precision_score (y_true y_pred : list nat) : Q :=
  prf_divide (tp_sum y_true y_pred) (count_ones y_pred).

Definition recall_score (y_true y_pred : list nat) : Q :=
  prf_divide (tp_sum y_true y_pred) (count_ones y_true).

(** The harmonic mean of precision and recall, 0 when both are 0. *)
Definition f1_score (y_true y_pred : list nat) : Q :=
  let p := precision_score y_true y_pred in
  let r := recall_score y_true y_pred in
  if Qeq_bool (p + r) 0 then 0%Q else Qred (2 * p * r / (p + r)).

Definition scores_of (y_true y_pred : list nat) : Scores :=
  {| precision := precision_score y_true y_pred;
     recall := recall_score y_true y_pred;
     f1 := f1_score y_true y_pred |}.

(** **** [NEREvaluator.evaluate_predictions] *)

Definition indicator (b : bool) : nat := if b then 1%nat else 0%nat.

Definition evaluate_predictions (true_entities pred_entities : list Entity)
  : gmap pystr Scores :=
  let entity_types : gset pystr :=
    list_to_set (map type (true_entities ++ pred_entities)) in
  let results :=
    fold_left
      (fun (results : gmap pystr Scores) entity_type =>
         let all_entities : gset pystr :=
           list_to_set (map entity (true_entities ++ pred_entities)) in
         let y_true :=
           map (fun e => indicator (existsb (fun x =>
                  bool_decide (entity x = e) && bool_decide (type x = entity_type))
                  true_entities)) (elements all_entities) in
         let y_pred :=
           map (fun e => indicator (existsb (fun x =>
                  bool_decide (entity x = e) && bool_decide (type x = entity_type))
                  pred_entities)) (elements all_entities) in
         if (0 <? length y_true)%nat
         then <[entity_type := scores_of y_true y_pred]> results
         else results)
      (elements entity_types) ∅ in
  let all_entities : gset pystr :=
    list_to_set (map entity (true_entities ++ pred_entities)) in
  let overall_true :=
    map (fun e => indicator (existsb (fun x => bool_decide (entity x = e)) true_entities))
        (elements all_entities) in
  let overall_pred :=
    map (fun e => indicator (existsb (fun x => bool_decide (entity x = e)) pred_entities))
        (elements all_entities) in
  <[py "overall" := scores_of overall_true overall_pred]> results.

(** **** The test data *)

(** A test case in the documented format. *)
Record TestCase := { tc_text : pystr; tc_entities : list Entity }.

Definition entity_to_py (e : Entity) : PyObj :=
  PDict [(py "entity", PStr (entity e)); (py "type", PStr (type e))].

Definition case_to_py (c : TestCase) : PyObj :=
  PDict [(py "text", PStr (tc_text c));
         (py "entities", PList (map entity_to_py (tc_entities c)))].

Definition dataset_to_py (cases : list TestCase) : PyObj :=
  PList (map case_to_py cases).

(** [d[k]] *)
Fixpoint dict_get (d : list (pystr * PyObj)) (k : pystr) : Result PyObj :=
  match d with
  | [] => Raise KeyError
  | (k', v) :: d' => if decide (k' = k) then Ok v else dict_get d' k
  end.

Fixpoint mapM {A B} (f : A -> Result B) (l : list A) : Result (list B) :=
  match l with
  | [] => Ok []
  | a :: l' => b ← f a; bs ← mapM f l'; Ok (b :: bs)
  end.

(** The reads [e["entity"]] and [e["type"]] of an entity dict. *)
Definition entity_of_py (o : PyObj) : Result Entity :=
  match o with
  | PDict d =>
      e ← dict_get d (py "entity");
      t ← dict_get d (py "type");
      match e, t with
      | PStr e, PStr t => Ok {| entity := e; type := t |}
      | _, _ => Raise TypeError
      end
  | _ => Raise TypeError
  end.

(** The reads [test_case["text"]] and [test_case["entities"]]. *)
Definition case_of_py (o : PyObj) : Result TestCase :=
  match o with
  | PDict d =>
      t ← dict_get d (py "text");
      es ← dict_get d (py "entities");
      match t, es with
      | PStr t, PList es =>
          es ← mapM entity_of_py es; Ok {| tc_text := t; tc_entities := es |}
      | _, _ => Raise TypeError
      end
  | _ => Raise TypeError
  end.

(** [self.test_data] as [evaluate_model] reads it: a list of test cases in
    the documented format.  Data of another shape is answered by [Raise]. *)
Definition cases_of_py (o : PyObj) : Result (list TestCase) :=
  match o with
  | PList l => mapM case_of_py l
  | _ => Raise TypeError
  end.

(** **** The class *)

Record NEREvaluator := {
  test_data : PyObj;
  results : gmap pystr Scores
}.

(** [__init__] *)
Definition new_evaluator : NEREvaluator :=
  {| test_data := PList []; results := ∅ |}.

(** [load_test_dataset] *)
Definition load_test_dataset (fs : FS) (self : NEREvaluator) (file_path : pystr)
  : Result NEREvaluator :=
  if os_path_exists fs file_path then
    content ← open_read fs file_path;
    data ← loads content;
    Ok {| test_data := data; results := results self |}
  else Ok self.

(** [save_test_dataset]; the result is the file system after the call. *)
Definition save_test_dataset (fs : FS) (self : NEREvaluator) (file_path : pystr)
  : Result FS :=
  fs1 ← os_makedirs fs (os_path_dirname file_path);
  open_write fs1 file_path (dumps (test_data self)).

(** [add_test_case] *)
Definition add_test_case (self : NEREvaluator) (txt : pystr) (ents : list Entity)
  : Result NEREvaluator :=
  match test_data self with
  | PList l =>
      Ok {| test_data := PList (l ++ [case_to_py {| tc_text := txt; tc_entities := ents |}]);
            results := results self |}
  | _ => Raise AttributeError
  end.

(** The three lists kept for one entity type in [all_results]. *)
Record Lists := { precisions : list Q; recalls : list Q; f1s : list Q }.

Definition no_lists : Lists := {| precisions := []; recalls := []; f1s := [] |}.

(** The body of [for entity_type, scores in metrics.items()]. *)
Definition record_scores (all_results : gmap pystr Lists) (item : pystr * Scores)
  : gmap pystr Lists :=
  let '(entity_type, scores) := item in
  let lists := default no_lists (all_results !! entity_type) in
  <[entity_type :=
      {| precisions := precisions lists ++ [precision scores];
         recalls := recalls lists ++ [recall scores];
         f1s := f1s lists ++ [f1 scores] |}]> all_results.

(** The body of [for test_case in self.test_data]. *)
Definition record_case (prediction_function : pystr -> list Entity)
    (all_results : gmap pystr Lists) (test_case : TestCase) : gmap pystr Lists :=
  let pred_entities := prediction_function (tc_text test_case) in
  let metrics := evaluate_predictions (tc_entities test_case) pred_entities in
  fold_left record_scores (map_to_list metrics) all_results.

(** [sum(values) / len(values)] *)
Definition mean (values : list Q) : Q :=
  Qred (fold_left Qplus values 0%Q / inject_Z (Z.of_nat (length values))).

Definition average (lists : Lists) : Scores :=
  {| precision := mean (precisions lists);
     recall := mean (recalls lists);
     f1 := mean (f1s lists) |}.

Definition evaluate_cases (cases : list TestCase)
    (prediction_function : pystr -> list Entity) : gmap pystr Scores :=
  let all_results := fold_left (record_case prediction_function) cases ∅ in
  average <$> all_results.

(** [evaluate_model]: the evaluator with [self.results] set, and the value
    returned. *)
Definition evaluate_model (self : NEREvaluator)
    (prediction_function : pystr -> list Entity)
  : Result (NEREvaluator * gmap pystr Scores) :=
  cases ← cases_of_py (test_data self);
  let final_results := evaluate_cases cases prediction_function in
  Ok ({| test_data := test_data self; results := final_results |}, final_results).

(** The scores of the cases in whose result the key [k] appears, in the
    order of the cases. *)
Definition appearing (prediction_function : pystr -> list Entity) (k : pystr)
    (cases : list TestCase) : list Scores :=
  omap (fun c => evaluate_predictions (tc_entities c)
                   (prediction_function (tc_text c)) !! k) cases.

Definition snoc_scores (lists : Lists) (sc : Scores) : Lists :=
  {| precisions := precisions lists ++ [precision sc];
     recalls := recalls lists ++ [recall sc];
     f1s := f1s lists ++ [f1 sc] |}.

Definition extend (lists : Lists) (ss : list Scores) : Lists :=
  {| precisions := precisions lists ++ map precision ss;
     recalls := recalls lists ++ map recall ss;
     f1s := f1s lists ++ map f1 ss |}.

(** [save_test_dataset] on one evaluator, then [load_test_dataset] from the
    same path into another. *)
Definition save_then_load (fs : FS) (self loader : NEREvaluator) (file_path : pystr)
  : Result NEREvaluator :=
  fs1 ← save_test_dataset fs self file_path;
  load_test_dataset fs1 loader file_path.

(** The characters of a test case. *)
Definition case_chars (c : TestCase) : pystr :=
  tc_text c ++ flat_map (fun e => entity e ++ type e) (tc_entities c).

(** Some case has a character outside ASCII. *)
Definition has_non_ascii (cases : list TestCase) : bool :=
  existsb (fun c => existsb (fun ch => (127 <? ch)%N) (case_chars c)) cases.

(** Some case has an empty entity list. *)
Definition has_empty_case (cases : list TestCase) : bool :=
  existsb (fun c => match tc_entities c with [] => true | _ => false end) cases.

(** Every string of the dataset is a Python string in which no high
    surrogate is directly followed by a low surrogate. *)
Definition dataset_ok (cases : list TestCase) : bool :=
  forallb (fun c =>
    str_ok (tc_text c)
    && forallb (fun e => str_ok (entity e) && str_ok (type e)) (tc_entities c)) cases.

(** *** Example data *)

Definition empty_fs : FS := {| files := ∅; dirs := ∅ |}.

Definition ex_file : pystr := py "tests/data/test_dataset.json".

(** A dataset with an accented letter, a character beyond the basic plane
    and a case without entities. *)
Definition ex_dataset : list TestCase :=
  [ {| tc_text := py "Ren" ++ [233%N] ++ py " Smith signed " ++ [128512%N];
       tc_entities := [ {| entity := py "Ren" ++ [233%N] ++ py " Smith";
                           type := py "Name" |} ] |};
    {| tc_text := py "Nothing to find here."; tc_entities := [] |} ].

(** The same with the two surrogate code points U+D83D U+DE00 written one
    after the other in the text, and what comes back from the file. *)
Definition surrogate_dataset : list TestCase :=
  [ {| tc_text := py "signed " ++ [55357%N; 56832%N]; tc_entities := [] |} ].

Definition surrogate_loaded : list TestCase :=
  [ {| tc_text := py "signed " ++ [128512%N]; tc_entities := [] |} ].

Definition evaluator_with (cases : list TestCase) : NEREvaluator :=
  {| test_data := dataset_to_py cases; results := ∅ |}.

Definition john_name : Entity := {| entity := py "John Smith"; type := py "Name" |}.
Definition march_2024 : Entity := {| entity := py "March 15, 2024"; type := py "Date" |}.
Definition march : Entity := {| entity := py "March 15"; type := py "Date" |}.

(** Two cases; the second has no entity of type Name, and the predictor
    finds nothing in it. *)
Definition ex_cases : list TestCase :=
  [ {| tc_text := py "John Smith signed."; tc_entities := [john_name] |};
    {| tc_text := py "Due on March 15, 2024."; tc_entities := [march_2024] |} ].

Definition ex_predict (txt : pystr) : list Entity :=
  if decide (txt = py "John Smith signed.") then [john_name] else [].

Definition ex_evaluator : NEREvaluator :=
  {| test_data := dataset_to_py ex_cases; results := ∅ |}.

End Evaluation.

(** * Part IV: what [evaluate_predictions] computes, key by key ([evaluation.py]) *)

Module Scoring.
Import Json Evaluation.

(** The set [entity_types] of [evaluate_predictions]. *)
Definition entity_types (true_entities pred_entities : list Entity) : gset pystr :=
  list_to_set (map type (true_entities ++ pred_entities)).

(** The set [all_entities] of [evaluate_predictions]. *)
Definition all_entities (true_entities pred_entities : list Entity) : gset pystr :=
  list_to_set (map entity (true_entities ++ pred_entities)).

(** [y_true] (or [y_pred]) of one entity type, over the texts [universe]. *)
Definition typed_labels (ents : list Entity) (entity_type : pystr) (universe : list pystr)
  : list nat :=
  map (fun e => indicator (existsb (fun x =>
         bool_decide (entity x = e) && bool_decide (type x = entity_type)) ents))
      universe.

(** [overall_true] (or [overall_pred]) over the texts [universe]. *)
Definition text_labels (ents : list Entity) (universe : list pystr) : list nat :=
  map (fun e => indicator (existsb (fun x => bool_decide (entity x = e)) ents)) universe.

(** The dict stored at [results[entity_type]]. *)
Definition type_scores (true_entities pred_entities : list Entity) (entity_type : pystr)
  : Scores :=
  let universe := elements (all_entities true_entities pred_entities) in
  scores_of (typed_labels true_entities entity_type universe)
            (typed_labels pred_entities entity_type universe).

(** The dict stored at [results["overall"]]. *)
Definition overall_scores (true_entities pred_entities : list Entity) : Scores :=
  let universe := elements (all_entities true_entities pred_entities) in
  scores_of (text_labels true_entities universe) (text_labels pred_entities universe).

Definition in_unit (q : Q) : Prop := (0 <= q)%Q /\ (q <= 1)%Q.

Definition scores_in_unit (s : Scores) : Prop :=
  in_unit (precision s) /\ in_unit (recall s) /\ in_unit (f1 s).

Definition swap_scores (s : Scores) : Scores :=
  {| precision := recall s; recall := precision s; f1 := f1 s |}.

Definition all_ones : Scores := {| precision := 1; recall := 1; f1 := 1 |}.
Definition all_zeros : Scores := {| precision := 0; recall := 0; f1 := 0 |}.

End Scoring.

(** * Part V: example data for the dataset files *)

Module StoreExamples.
Import Json Evaluation.

(** Test data with fields that the evaluator does not know. *)
Definition annotated_data : PyObj :=
  PList [ PDict [ (py "text", PStr (py "Ren" ++ [233%N] ++ py " Smith signed."));
                  (py "entities", PList [ PDict [ (py "entity", PStr (py "Ren" ++ [233%N] ++ py " Smith"));
                                                  (py "type", PStr (py "Name"));
                                                  (py "checked", PBool true) ] ]);
                  (py "source", PStr (py "contract 12"));
                  (py "reviewer", PNone) ] ].

Definition annotated_evaluator : NEREvaluator :=
  {| test_data := annotated_data; results := ∅ |}.

(** A file system with one file of blanks. *)
Definition blank_file : pystr := py "tests/data/blank.json".

Definition blank_fs : FS :=
  {| files := {[ blank_file := [10; 32; 32; 10]%N ]}; dirs := {[ py "tests/data" ]} |}.

End StoreExamples.

(** * Part VI: the shape of the extraction output, and the scripts that group it
      ([ner.py], [combined_ner.py], [extract_text.py], [analyze_document.py]) *)

Module NERShape.
Import NER.

(** The output types of the statistical branch of [extract_entities]. *)
Definition statistical_types : list pystr :=
  map py ["Name"; "Date"; "MonetaryAmount"]%string.


(** The match of "trust" in [ex_text]. *)
Definition trust_match : Match :=
  {| m_start := 22; m_end := 27; m_group := py "trust" |}.

End NERShape.

Module Grouping.

(** The dict [entity_groups]: Python dicts keep the order in which their
    keys were first inserted, and the scripts print in that order. *)
Definition Groups := list (pystr * list pystr).

(** [d.get(k)] *)
Fixpoint groups_get (d : Groups) (k : pystr) : option (list pystr) :=
  match d with
  | [] => None
  | (k', l) :: d' => if decide (k' = k) then Some l else groups_get d' k
  end.

(** [d[k].append(x)] for a key that is in the dict. *)
Fixpoint groups_append (d : Groups) (k x : pystr) : Groups :=
  match d with
  | [] => []
  | (k', l) :: d' =>
      if decide (k' = k) then (k', l ++ [x]) :: d' else (k', l) :: groups_append d' k x
  end.

(** The body of [for entity in entities]. *)
Definition group_step (entity_groups : Groups) (e : Entity) : Groups :=
  let entity_type := type e in
  let entity_groups :=
    if decide (entity_type ∈ map fst entity_groups) then entity_groups
    else entity_groups ++ [(entity_type, [])] in
  groups_append entity_groups entity_type (entity e).

(** The grouping loop of [combined_ner.py], [analyze_document.py] and
    [extract_text.py]. *)
Definition group_by_type (entities : list Entity) : Groups :=
  fold_left group_step entities [].

(** The elements of a list in the order of their first occurrence. *)
Fixpoint first_occurrences (l : list pystr) : list pystr :=
  match l with
  | [] => []
  | x :: l' => x :: filter (fun y => y <> x) (first_occurrences l')
  end.

(** The texts of the entities of one type, in order. *)
Definition texts_of_type (k : pystr) (entities : list Entity) : list pystr :=
  map entity (filter (fun e => type e = k) entities).

End Grouping.

Module Scripts.
Import NER Grouping.

(** [main] of [extract_text.py] and of [analyze_document.py], from the text
    on: the entities of [extract_entities], grouped by type for printing. *)
Definition grouped_entities (env : Env) (txt : pystr) : Result Groups :=
  entities ← extract_entities env txt;
  Ok (group_by_type entities).

End Scripts.

(** * Part VII: the language model's reply ([llm.py]) *)

Module LLM.
Import Json.

Fixpoint find_from (c : N) (s : pystr) (i : Z) : Z :=
  match s with
  | [] => -1
  | x :: r => if (x =? c)%N then i else find_from c r (i + 1)
  end.

(** [s.find(c)] for a one-character [c]: the first index, or -1. *)
Definition find (c : N) (s : pystr) : Z := find_from c s 0.

Fixpoint rfind_from (c : N) (s : pystr) (i best : Z) : Z :=
  match s with
  | [] => best
  | x :: r => rfind_from c r (i + 1) (if (x =? c)%N then i else best)
  end.

(** [s.rfind(c)]: the last index, or -1. *)
Definition rfind (c : N) (s : pystr) : Z := rfind_from c s 0 (-1).

(** [s[start:end]] for [0 <= start <= end]. *)
Definition slice (s : pystr) (start_idx end_idx : Z) : pystr :=
  take (Z.to_nat (end_idx - start_idx)) (drop (Z.to_nat start_idx) s).

(** [LLMProcessor.extract_entities], from the outcome of the API call on:
    [completion] is [completion.choices[0].message.content], or the exception
    raised by the call or by reading a reply that holds no text.  Every exception ends in the empty list. *)
Definition extract_entities (completion : Result pystr) : Result PyObj :=
  match completion with
  | Raise _ => Ok (PList [])
  | Ok result =>
      let start_idx := find 91%N result in
      let end_idx := rfind 93%N result + 1 in
      if (start_idx >=? 0) && (end_idx >? start_idx) then
        let json_str := slice result start_idx end_idx in
        match loads json_str with
        | Ok entities => Ok entities
        | Raise Unmodelled => Raise Unmodelled
        | Raise _ => Ok (PList [])
        end
      else Ok (PList [])
  end.

(** *** Example data *)

Definition reply_prefix : pystr := py "Here are the entities I found: ".


End LLM.

(** * Part VIII: text recognition and the DOCX writer ([ocr.py], [llm.py]) *)

Module Str.
Import Evaluation.

(** [str.isspace] on one character: the code points that CPython's
    [_PyUnicode_IsWhitespace] accepts. *)
Definition is_space (c : N) : bool :=
  ((9 <=? c) && (c <=? 13) || (28 <=? c) && (c <=? 32) || (c =? 133) || (c =? 160)
   || (c =? 5760) || (8192 <=? c) && (c <=? 8202) || (c =? 8232) || (c =? 8233)
   || (c =? 8239) || (c =? 8287) || (c =? 12288))%N.

Definition lstrip (s : pystr) : pystr := drop_while is_space s.
Definition rstrip (s : pystr) : pystr := reverse (drop_while is_space (reverse s)).

(** [s.strip()] *)
Definition strip (s : pystr) : pystr := rstrip (lstrip s).

End Str.

Module OCR.
Import Str.

(** The two exceptions that leave [OCRProcessor.process_image]:
    [FileNotFoundError("Image file not found: ...")] and
    [Exception("Error processing image: ...")]. *)
Inductive OcrExn := ImageNotFound | ProcessingError.

(** The file system and Tesseract: [recognize path lang config] is
    [pytesseract.image_to_string(Image.open(path), lang=lang, config=config)],
    or [None] when opening the image or reading it raises. *)
Record OcrEnv := {
  image_exists : pystr -> bool;
  recognize : pystr -> pystr -> option pystr -> option pystr
}.

(** [OCRProcessor.process_image_with_config]; [process_image] is the same
    without [config]. *)
Definition process_image_with_config (env : OcrEnv) (image_path : pystr)
    (config : option pystr) (lang : pystr) : OcrExn + pystr :=
  if negb (image_exists env image_path) then inl ImageNotFound
  else
    match recognize env image_path lang config with
    | Some txt => inr (strip txt)
    | None => inl ProcessingError
    end.

(** [OCRProcessor.process_image] *)
Definition process_image (env : OcrEnv) (image_path lang : pystr) : OcrExn + pystr :=
  process_image_with_config env image_path None lang.

(** *** Example data *)

Definition scan_path : pystr := py "legal_document.png".

Definition ex_ocr : OcrEnv :=
  {| image_exists := fun p => bool_decide (p = scan_path);
     recognize := fun _ _ _ =>
       Some ([10; 32]%N ++ py "TRUST AGREEMENT" ++ [10]%N ++ py "John Smith " ++ [10; 12]%N) |}.

End OCR.

Module Docx.
Import Json Str.

(** [s.split('\n')] *)
Fixpoint split_lines (s : pystr) : list pystr :=
  match s with
  | [] => [[]]
  | c :: r =>
      if (c =? 10)%N then [] :: split_lines r
      else
        match split_lines r with
        | l :: ls => (c :: l) :: ls
        | [] => [[c]]
        end
  end.

(** The character classes of the Unicode database that [str.isupper]
    consults. *)
Record Unicode := {
  is_lower : N -> bool;
  is_title : N -> bool;
  is_upper : N -> bool
}.

(** [s.isupper()]: no lowercase or titlecase character and at least one
    uppercase one; [cased] records that an uppercase character was seen. *)
Fixpoint isupper_from (u : Unicode) (cased : bool) (s : pystr) : bool :=
  match s with
  | [] => cased
  | c :: r =>
      if is_lower u c || is_title u c then false
      else isupper_from u (cased || is_upper u c) r
  end.

Definition isupper (u : Unicode) (s : pystr) : bool := isupper_from u false s.

Inductive Style := Normal | Heading1 | Heading2.

(** A paragraph of the document: its text, its style and whether it is
    centred. *)
Record Paragraph := {
  p_text : pystr;
  p_style : Style;
  p_centered : bool
}.

(** The body of the loop of [save_docx_document]: the paragraph added for
    one line. *)
Definition add_line (u : Unicode) (line : pystr) : Paragraph :=
  let line := strip line in
  if bool_decide (line = []) then
    {| p_text := []; p_style := Normal; p_centered := false |}
  else if isupper u line then
    {| p_text := line; p_style := Heading1; p_centered := true |}
  else if starts_with (py "ARTICLE") line || starts_with (py "SECTION") line then
    {| p_text := line; p_style := Heading2; p_centered := false |}
  else
    {| p_text := line; p_style := Normal; p_centered := false |}.

(** The paragraphs [save_docx_document] adds to the document, in order. *)
Definition paragraphs (u : Unicode) (document_text : pystr) : list Paragraph :=
  map (add_line u) (split_lines (strip document_text)).

(** [python-docx]: [doc_save doc filename] is [doc.save(filename)] followed by
    [os.path.abspath(filename)], or [None] when building or saving the
    document raises. *)
Record DocxEnv := {
  unicode : Unicode;
  doc_save : list Paragraph -> pystr -> option pystr
}.

(** [LLMProcessor.save_docx_document] *)
Definition save_docx_document (env : DocxEnv) (document_text filename : pystr) : pystr :=
  match doc_save env (paragraphs (unicode env) document_text) filename with
  | Some path => path
  | None => []
  end.

(** The characters that are not blanks. *)
Definition visible (s : pystr) : pystr := List.filter (fun c => negb (is_space c)) s.

End Docx.

(** * Facts about the extraction *)

Module NERFacts.
Import NER.

Lemma overlaps_sym (p q : Span) : overlaps p q = overlaps q p.
Proof.
  unfold overlaps. destruct p as [a b], q as [c d]; simpl.
  destruct (Z.leb_spec b c), (Z.geb_spec a d), (Z.leb_spec d a), (Z.geb_spec c b);
    simpl; try reflexivity; lia.
Qed.

Lemma overlaps_spec (p q : Span) :
  overlaps p q = true <-> q.1 < p.2 /\ p.1 < q.2.
Proof.
  unfold overlaps. destruct (Z.leb_spec p.2 q.1), (Z.geb_spec p.1 q.2); simpl;
    split; intros; try discriminate; try reflexivity; lia.
Qed.

Lemma overlap_flag_true (s : Span) (spans : gset Span) :
  overlap_flag s spans = true <-> exists p, p ∈ spans /\ overlaps s p = true.
Proof.
  unfold overlap_flag. rewrite existsb_exists. split.
  - intros (p & Hin & Ho). exists p. split; [|exact Ho].
    apply elem_of_elements, list_elem_of_In, Hin.
  - intros (p & Hin & Ho). exists p. split; [|exact Ho].
    apply list_elem_of_In, elem_of_elements, Hin.
Qed.

Lemma overlap_flag_false (s : Span) (spans : gset Span) :
  overlap_flag s spans = false <-> forall p, p ∈ spans -> overlaps s p = false.
Proof.
  split.
  - intros Hf p Hp. destruct (overlaps s p) eqn:Ho; [|reflexivity].
    assert (overlap_flag s spans = true) by (apply overlap_flag_true; eauto).
    congruence.
  - intros Hall. destruct (overlap_flag s spans) eqn:Hf; [|reflexivity].
    apply overlap_flag_true in Hf as (p & Hp & Ho). rewrite (Hall p Hp) in Ho.
    discriminate.
Qed.

(** **** The trace and the code agree *)

Lemma erase_step_ent t e : erase (t_step_ent t e) = step_ent (erase t) e.
Proof.
  unfold t_step_ent, step_ent, erase, stat_entry, standard_type, ent_span; simpl.
  repeat case_decide; simpl; try reflexivity; try contradiction;
    rewrite map_app; simpl; rewrite ?app_nil_r; reflexivity.
Qed.

Lemma erase_step_match t mt : erase (t_step_match t mt) = step_match (erase t) mt.
Proof.
  unfold t_step_match, step_match, erase, match_span; simpl.
  destruct (overlap_flag _ _); simpl; [reflexivity|].
  rewrite map_app. reflexivity.
Qed.

Lemma erase_fold_ent ents t :
  erase (fold_left t_step_ent ents t) = fold_left step_ent ents (erase t).
Proof.
  revert t. induction ents as [|e ents IH]; intros t; simpl; [reflexivity|].
  rewrite IH, erase_step_ent. reflexivity.
Qed.

Lemma erase_fold_match ms t :
  erase (fold_left t_step_match ms t) = fold_left step_match ms (erase t).
Proof.
  revert t. induction ms as [|mt ms IH]; intros t; simpl; [reflexivity|].
  rewrite IH, erase_step_match. reflexivity.
Qed.

Lemma fold_left_flat_map {A B C} (f : A -> C -> A) (g : B -> list C) (l : list B) (a : A) :
  fold_left (fun a b => fold_left f (g b) a) l a = fold_left f (flat_map g l) a.
Proof.
  revert a. induction l as [|b l IH]; intros a; simpl; [reflexivity|].
  rewrite fold_left_app. apply IH.
Qed.

Lemma lexicon_pass_flat env txt st :
  lexicon_pass env txt st = fold_left step_match (lexicon_candidates env txt) st.
Proof. unfold lexicon_pass, lexicon_candidates. apply fold_left_flat_map. Qed.

Lemma trace_erasure env nlp txt :
  erase (t_run_extract env nlp txt) = run_extract env nlp txt.
Proof.
  unfold t_run_extract, run_extract, ner_pass.
  rewrite lexicon_pass_flat, erase_fold_match, erase_fold_ent. reflexivity.
Qed.

Lemma custom_erasure nlp txt :
  map ent (t_extract_custom nlp txt) = extract_custom_entities nlp txt.
Proof.
  unfold t_extract_custom, extract_custom_entities.
  induction (nlp txt) as [|e l IH]; simpl; [reflexivity|].
  rewrite map_app, IH. case_decide; reflexivity.
Qed.

Lemma custom_block_erasure env txt p :
  map ent (t_custom_block env txt p) = custom_block env txt p.
Proof.
  unfold t_custom_block, custom_block.
  destruct (path_exists env p); [|reflexivity].
  destruct (spacy_load env p); [apply custom_erasure|reflexivity].
Qed.

(** The list returned by [extract_all_entities] is the trace with spans and
    sources forgotten. *)
Lemma extract_all_erasure env nlp txt p :
  spacy_load env (py "en_core_web_lg") = Ok nlp ->
  extract_all_entities env txt p = Ok (map ent (t_extract_all env nlp txt p)).
Proof.
  intros Hload. unfold extract_all_entities, extract_entities, t_extract_all.
  rewrite Hload. simpl. rewrite map_app, custom_block_erasure.
  rewrite <- trace_erasure. reflexivity.
Qed.

(** **** Spans only accumulate *)

Lemma t_spans_step_ent t e : t_spans (t_step_ent t e) = t_spans t ∪ {[ent_span e]}.
Proof.
  unfold t_step_ent. case_decide; simpl; [|reflexivity].
  apply leibniz_equiv. set_solver.
Qed.

Lemma t_spans_fold_ent ents t :
  t_spans (fold_left t_step_ent ents t) = t_spans t ∪ list_to_set (ent_span <$> ents).
Proof.
  revert t. induction ents as [|e ents IH]; intros t; simpl.
  - apply leibniz_equiv. set_solver.
  - rewrite IH, t_spans_step_ent. apply leibniz_equiv. set_solver.
Qed.

Lemma t_spans_step_match_mono t mt : t_spans t ⊆ t_spans (t_step_match t mt).
Proof. unfold t_step_match. destruct (negb _); simpl; set_solver. Qed.

Lemma t_spans_fold_match_mono ms t : t_spans t ⊆ t_spans (fold_left t_step_match ms t).
Proof.
  revert t. induction ms as [|mt ms IH]; intros t; simpl; [set_solver|].
  etrans; [apply (t_spans_step_match_mono t mt)|apply IH].
Qed.

Lemma accepted_step_ent_mono t e c : c ∈ accepted t -> c ∈ accepted (t_step_ent t e).
Proof. unfold t_step_ent. case_decide; simpl; set_solver. Qed.

Lemma accepted_fold_ent_mono ents t c :
  c ∈ accepted t -> c ∈ accepted (fold_left t_step_ent ents t).
Proof.
  revert t. induction ents as [|e ents IH]; intros t H; simpl; [exact H|].
  apply IH, accepted_step_ent_mono, H.
Qed.

Lemma accepted_step_match_mono t mt c : c ∈ accepted t -> c ∈ accepted (t_step_match t mt).
Proof. unfold t_step_match. destruct (negb _); simpl; set_solver. Qed.

Lemma accepted_fold_match_mono ms t c :
  c ∈ accepted t -> c ∈ accepted (fold_left t_step_match ms t).
Proof.
  revert t. induction ms as [|mt ms IH]; intros t H; simpl; [exact H|].
  apply IH, accepted_step_match_mono, H.
Qed.

(** **** The invariant of the two loops *)

Lemma tinv_init : tinv t_init.
Proof.
  split; [|split].
  - intros p q Hp. set_solver.
  - intros c Hc. simpl in Hc. set_solver.
  - intros i j a b _ Ha. simpl in Ha. rewrite lookup_nil in Ha. discriminate.
Qed.

Lemma no_overlap_app_short (l new : list Candidate) :
  no_overlap l -> (length new <= 1)%nat ->
  (forall a b, a ∈ new -> b ∈ l -> overlaps (span a) (span b) = false) ->
  no_overlap (l ++ new).
Proof.
  intros Hl Hlen Hnew i j a b Hij Ha Hb.
  apply lookup_app_Some in Ha as [Ha|[Hi Ha]];
    apply lookup_app_Some in Hb as [Hb|[Hj Hb]].
  - exact (Hl i j a b Hij Ha Hb).
  - rewrite overlaps_sym. apply Hnew.
    + eapply list_elem_of_lookup_2, Hb.
    + eapply list_elem_of_lookup_2, Ha.
  - apply Hnew.
    + eapply list_elem_of_lookup_2, Ha.
    + eapply list_elem_of_lookup_2, Hb.
  - apply lookup_lt_Some in Ha, Hb. lia.
Qed.

(** Adding a span that overlaps no recorded span, with at most one entity at
    that span, keeps the invariant. *)
Lemma tinv_add t s new :
  tinv t ->
  (forall p, p ∈ t_spans t -> overlaps s p = false) ->
  (forall c, c ∈ new -> span c = s) -> (length new <= 1)%nat ->
  tinv {| accepted := accepted t ++ new; t_spans := t_spans t ∪ {[s]} |}.
Proof.
  intros (Hd & Hin & Hno) Hs Hnew Hlen. split; [|split]; simpl.
  - intros p q Hp Hq Hpq.
    apply elem_of_union in Hp as [Hp|Hp]; apply elem_of_union in Hq as [Hq|Hq].
    + apply Hd; assumption.
    + apply elem_of_singleton in Hq. subst q. rewrite overlaps_sym. apply Hs, Hp.
    + apply elem_of_singleton in Hp. subst p. apply Hs, Hq.
    + apply elem_of_singleton in Hp, Hq. congruence.
  - intros c Hc. apply elem_of_app in Hc as [Hc|Hc].
    + apply elem_of_union_l, Hin, Hc.
    + apply elem_of_union_r, elem_of_singleton, Hnew, Hc.
  - apply no_overlap_app_short; [exact Hno|exact Hlen|].
    intros a b Ha Hb. rewrite (Hnew a Ha). apply Hs, Hin, Hb.
Qed.

Lemma stat_entry_span e c : c ∈ option_list (stat_entry e) -> span c = ent_span e.
Proof.
  unfold stat_entry. destruct (standard_type (label_ e)); simpl; intros H.
  - apply list_elem_of_singleton in H. subst c. reflexivity.
  - inversion H.
Qed.

Lemma stat_entry_length e : (length (option_list (stat_entry e)) <= 1)%nat.
Proof. destruct (stat_entry e); simpl; lia. Qed.

Lemma tinv_step_ent t e :
  tinv t ->
  (forall p, p ∈ t_spans t -> p <> ent_span e -> overlaps (ent_span e) p = false) ->
  tinv (t_step_ent t e).
Proof.
  intros Ht Hdis. unfold t_step_ent. case_decide as Hin; [exact Ht|].
  apply tinv_add; [exact Ht| |apply stat_entry_span|apply stat_entry_length].
  intros p Hp. apply Hdis; [exact Hp|]. intros ->. contradiction.
Qed.

Lemma tinv_step_match t mt : tinv t -> tinv (t_step_match t mt).
Proof.
  intros Ht. unfold t_step_match.
  destruct (overlap_flag (match_span mt) (t_spans t)) eqn:Hf; simpl; [exact Ht|].
  apply tinv_add; [exact Ht| | |simpl; lia].
  - apply overlap_flag_false, Hf.
  - intros c Hc. apply list_elem_of_singleton in Hc. subst c. reflexivity.
Qed.

Lemma tinv_fold_match ms t : tinv t -> tinv (fold_left t_step_match ms t).
Proof.
  revert t. induction ms as [|mt ms IH]; intros t Ht; simpl; [exact Ht|].
  apply IH, tinv_step_match, Ht.
Qed.

Lemma tinv_fold_ent (all ents : list Ent) t :
  ents_disjoint all -> ents ⊆ all ->
  (forall p, p ∈ t_spans t -> exists e, e ∈ all /\ ent_span e = p) ->
  tinv t -> tinv (fold_left t_step_ent ents t).
Proof.
  intros Hall. revert t. induction ents as [|e ents IH]; intros t Hsub Hsp Ht; simpl;
    [exact Ht|].
  apply IH.
  - set_solver.
  - intros p Hp. rewrite t_spans_step_ent in Hp. apply elem_of_union in Hp as [Hp|Hp].
    + apply Hsp, Hp.
    + apply elem_of_singleton in Hp. exists e. split; [set_solver|congruence].
  - apply tinv_step_ent; [exact Ht|].
    intros p Hp Hne. destruct (Hsp p Hp) as (e' & He' & <-).
    apply Hall; [set_solver|exact He'|congruence].
Qed.

Lemma ents_disjointb_sound ents : ents_disjointb ents = true -> ents_disjoint ents.
Proof.
  unfold ents_disjointb, ents_disjoint. intros H e1 e2 H1 H2 Hne.
  rewrite forallb_forall in H. apply list_elem_of_In in H1, H2.
  specialize (H e1 H1). rewrite forallb_forall in H. specialize (H e2 H2).
  apply orb_true_iff in H as [H|H].
  - apply bool_decide_eq_true in H. contradiction.
  - apply negb_true_iff, H.
Qed.

Lemma tinv_ner_pass all pre suf :
  ents_disjoint all -> all = pre ++ suf -> tinv (fold_left t_step_ent pre t_init).
Proof.
  intros Hd ->. apply (tinv_fold_ent (pre ++ suf)); [exact Hd|set_solver| |apply tinv_init].
  intros p Hp. simpl in Hp. set_solver.
Qed.

Lemma tinv_run env nlp txt : ents_disjoint (nlp txt) -> tinv (t_run_extract env nlp txt).
Proof.
  intros Hd. apply tinv_fold_match.
  apply (tinv_ner_pass (nlp txt) (nlp txt) []); [exact Hd|]. rewrite app_nil_r. reflexivity.
Qed.

Lemma erase_init : erase t_init = init.
Proof. reflexivity. Qed.

(** C9. Inside [extract_entities] the recorded spans never overlap: an
    entity of the statistical recognizer whose span is already recorded is
    skipped; a regex match is appended, and its span recorded, exactly when
    it overlaps no recorded span, and is dropped as soon as one recorded span
    overlaps it; and, spaCy's entities not overlapping one another, the set
    [processed_spans] is pairwise non-overlapping after every iteration of
    the first loop and after every iteration of the second. *)
Theorem recorded_spans_disjoint (env : Env) (nlp : Model) (txt : pystr) :
  ents_disjoint (nlp txt) ->
  (forall st e, ent_span e ∈ processed_spans st -> step_ent st e = st)
  /\ (forall st mt,
        (forall p, p ∈ processed_spans st -> overlaps (match_span mt) p = false) ->
        step_match st mt =
          {| entities := entities st ++ [{| entity := m_group mt; type := py "LegalTerm" |}];
             processed_spans := processed_spans st ∪ {[match_span mt]} |})
  /\ (forall st mt p,
        p ∈ processed_spans st -> overlaps (match_span mt) p = true ->
        step_match st mt = st)
  /\ (forall pre suf, nlp txt = pre ++ suf ->
        pairwise_disjoint (processed_spans (ner_pass pre init)))
  /\ (forall pre suf, lexicon_candidates env txt = pre ++ suf ->
        pairwise_disjoint
          (processed_spans (fold_left step_match pre (ner_pass (nlp txt) init))))
  /\ run_extract env nlp txt
       = fold_left step_match (lexicon_candidates env txt) (ner_pass (nlp txt) init).
Proof.
  intros Hd. repeat split.
  - intros st e Hin. unfold step_ent. fold (ent_span e).
    case_decide; [reflexivity|contradiction].
  - intros st mt Hno. unfold step_match. fold (match_span mt).
    apply overlap_flag_false in Hno. rewrite Hno. reflexivity.
  - intros st mt p Hp Ho. unfold step_match. fold (match_span mt).
    assert (overlap_flag (match_span mt) (processed_spans st) = true) as ->
      by (apply overlap_flag_true; eauto).
    reflexivity.
  - intros pre suf Heq. unfold ner_pass.
    rewrite <- erase_init, <- erase_fold_ent. simpl.
    apply (tinv_ner_pass _ _ _ Hd Heq).
  - intros pre suf Heq. unfold ner_pass.
    rewrite <- erase_init, <- erase_fold_ent, <- erase_fold_match. simpl.
    apply tinv_fold_match, (tinv_ner_pass (nlp txt) (nlp txt) []); [exact Hd|].
    rewrite app_nil_r. reflexivity.
  - unfold run_extract. apply lexicon_pass_flat.
Qed.

Lemma recorded_spans_disjoint_witness :
  ents_disjoint (ex_nlp ex_text)
  /\ pairwise_disjoint (processed_spans (run_extract ex_env ex_nlp ex_text)).
Proof.
  assert (Hd : ents_disjoint (ex_nlp ex_text))
    by (apply ents_disjointb_sound; vm_compute; reflexivity).
  split; [exact Hd|].
  destruct (recorded_spans_disjoint ex_env ex_nlp ex_text Hd)
    as (_ & _ & _ & _ & Hlex & Hrun).
  rewrite Hrun. apply (Hlex _ []). rewrite app_nil_r. reflexivity.
Defined.

Lemma custom_block_src env txt p c : c ∈ t_custom_block env txt p -> src c = DomainTrained.
Proof.
  unfold t_custom_block, t_extract_custom.
  destruct (path_exists env p); [|intros H; inversion H].
  destruct (spacy_load env p) as [m|]; [|intros H; inversion H].
  intros H. apply list_elem_of_In, in_flat_map in H as (e & _ & H).
  case_decide; [|inversion H]. destruct H as [<-|[]]. reflexivity.
Qed.

(** C1, as stated, fails: with the standard pipeline tagging "John Smith" a
    PERSON and the custom model tagging the same characters a CLIENT, the
    returned list holds both entities, at the same span. *)
Lemma merge_overlap_counterexample :
  spacy_load ex_env (py "en_core_web_lg") = Ok ex_nlp
  /\ extract_all_entities ex_env ex_text ex_path =
       Ok [ {| entity := py "John Smith"; type := py "Name" |};
            {| entity := py "trust"; type := py "LegalTerm" |};
            {| entity := py "John Smith"; type := py "CLIENT" |} ]
  /\ ~ no_overlap (t_extract_all ex_env ex_nlp ex_text ex_path).
Proof.
  split; [reflexivity|]. split; [vm_compute; reflexivity|].
  intros H.
  specialize (H 0%nat 2%nat
    {| src := Statistical; span := (0, 10);
       ent := {| entity := py "John Smith"; type := py "Name" |} |}
    {| src := DomainTrained; span := (0, 10);
       ent := {| entity := py "John Smith"; type := py "CLIENT" |} |}).
  assert (overlaps (0, 10) (0, 10) = false) as Hcontra.
  { apply H; [lia|vm_compute; reflexivity|vm_compute; reflexivity]. }
  vm_compute in Hcontra. discriminate.
Qed.

(** C1, amended. In the list returned by [extract_all_entities], no two
    entities that come from the statistical recognizer or from the regex
    matcher overlap, provided spaCy's entities do not overlap one another;
    the entities of the custom model are appended after them without any
    overlap check. *)
Theorem standard_entities_no_overlap (env : Env) (nlp : Model) (txt p : pystr) :
  ents_disjoint (nlp txt) ->
  spacy_load env (py "en_core_web_lg") = Ok nlp ->
  extract_all_entities env txt p = Ok (map ent (t_extract_all env nlp txt p))
  /\ t_extract_all env nlp txt p
       = accepted (t_run_extract env nlp txt) ++ t_custom_block env txt p
  /\ forall i j a b, i <> j ->
       t_extract_all env nlp txt p !! i = Some a ->
       t_extract_all env nlp txt p !! j = Some b ->
       src a <> DomainTrained -> src b <> DomainTrained ->
       overlaps (span a) (span b) = false.
Proof.
  intros Hd Hload. split; [apply extract_all_erasure, Hload|]. split; [reflexivity|].
  intros i j a b Hij Ha Hb Hsa Hsb. unfold t_extract_all in Ha, Hb.
  destruct (tinv_run env nlp txt Hd) as (_ & _ & Hno).
  apply lookup_app_Some in Ha as [Ha|[_ Ha]].
  - apply lookup_app_Some in Hb as [Hb|[_ Hb]].
    + exact (Hno i j a b Hij Ha Hb).
    + apply list_elem_of_lookup_2, custom_block_src in Hb. contradiction.
  - apply list_elem_of_lookup_2, custom_block_src in Ha. contradiction.
Qed.

Lemma standard_entities_no_overlap_witness :
  ents_disjoint (ex_nlp ex_text)
  /\ spacy_load ex_env (py "en_core_web_lg") = Ok ex_nlp
  /\ forall i j a b, i <> j ->
       t_extract_all ex_env ex_nlp ex_text ex_path !! i = Some a ->
       t_extract_all ex_env ex_nlp ex_text ex_path !! j = Some b ->
       src a <> DomainTrained -> src b <> DomainTrained ->
       overlaps (span a) (span b) = false.
Proof.
  assert (Hd : ents_disjoint (ex_nlp ex_text))
    by (apply ents_disjointb_sound; vm_compute; reflexivity).
  split; [exact Hd|]. split; [reflexivity|].
  apply (standard_entities_no_overlap ex_env ex_nlp ex_text ex_path Hd eq_refl).
Defined.

(** **** Statistical entities against regex matches *)

Lemma accepted_fold_ent_src ents t :
  (forall c, c ∈ accepted t -> src c = Statistical) ->
  forall c, c ∈ accepted (fold_left t_step_ent ents t) -> src c = Statistical.
Proof.
  revert t. induction ents as [|e ents IH]; intros t Ht; simpl; [exact Ht|].
  apply IH. intros c. unfold t_step_ent. case_decide; simpl; [apply Ht|].
  intros Hc. apply elem_of_app in Hc as [Hc|Hc]; [apply Ht, Hc|].
  unfold stat_entry in Hc. destruct (standard_type (label_ e)); simpl in Hc.
  - apply list_elem_of_singleton in Hc. subst c. reflexivity.
  - inversion Hc.
Qed.

Lemma lexicon_clear_fold (ms : list Match) (t : TState) (S0 : gset Span) :
  S0 ⊆ t_spans t ->
  (forall c, c ∈ accepted t -> src c = Lexicon ->
     forall p, p ∈ S0 -> overlaps (span c) p = false) ->
  forall c, c ∈ accepted (fold_left t_step_match ms t) -> src c = Lexicon ->
    forall p, p ∈ S0 -> overlaps (span c) p = false.
Proof.
  revert t. induction ms as [|mt ms IH]; intros t Hsub Ht; simpl; [exact Ht|].
  apply IH.
  - etrans; [exact Hsub|apply t_spans_step_match_mono].
  - intros c. unfold t_step_match.
    destruct (overlap_flag (match_span mt) (t_spans t)) eqn:Hf; simpl; [apply Ht|].
    intros Hc. apply elem_of_app in Hc as [Hc|Hc]; [apply Ht, Hc|].
    apply list_elem_of_singleton in Hc. subst c. intros _ p Hp. simpl.
    rewrite overlap_flag_false in Hf. apply Hf, Hsub, Hp.
Qed.

Lemma lexicon_clear env nlp txt c e :
  c ∈ accepted (t_run_extract env nlp txt) -> src c = Lexicon -> e ∈ nlp txt ->
  overlaps (span c) (ent_span e) = false.
Proof.
  intros Hc Hsrc He. unfold t_run_extract in Hc.
  eapply (lexicon_clear_fold _ _ (t_spans (fold_left t_step_ent (nlp txt) t_init)));
    [reflexivity| |exact Hc|exact Hsrc|].
  - intros c' Hc' Hl.
    apply accepted_fold_ent_src in Hc'; [congruence|].
    intros c0 H0. inversion H0.
  - rewrite t_spans_fold_ent. apply elem_of_union_r, elem_of_list_to_set.
    apply list_elem_of_fmap. exists e. split; [reflexivity|exact He].
Qed.

Lemma first_at_span_accepted pre e suf c :
  stat_entry e = Some c ->
  (forall e', e' ∈ pre -> ent_span e' <> ent_span e) ->
  c ∈ accepted (fold_left t_step_ent (pre ++ e :: suf) t_init).
Proof.
  intros Hc Hfirst. rewrite fold_left_app. simpl.
  apply accepted_fold_ent_mono. unfold t_step_ent.
  case_decide as Hin.
  - rewrite t_spans_fold_ent in Hin. apply elem_of_union in Hin as [Hin|Hin].
    + simpl in Hin. set_solver.
    + apply elem_of_list_to_set, list_elem_of_fmap in Hin as (e' & Heq & He').
      exfalso. apply (Hfirst e' He'). congruence.
  - simpl. rewrite Hc. simpl. apply elem_of_app. right. apply list_elem_of_singleton.
    reflexivity.
Qed.

(** C2, as stated, fails: the statistical candidate "John Smith" and the
    custom model's candidate at the same span have different priorities and
    overlap, and the lower-priority one is in the output all the same. *)
Lemma priority_counterexample :
  extract_all_entities ex_env ex_text ex_path =
    Ok (map ent (t_extract_all ex_env ex_nlp ex_text ex_path))
  /\ ~ priority_respected (all_candidates ex_env ex_nlp ex_custom_nlp ex_text)
                          (t_extract_all ex_env ex_nlp ex_text ex_path).
Proof.
  split; [vm_compute; reflexivity|].
  intros H.
  destruct (H {| src := Statistical; span := (0, 10);
                 ent := {| entity := py "John Smith"; type := py "Name" |} |}
              (custom_entry john_client)) as [_ Hout].
  - apply (bool_decide_eq_true_1 _). vm_compute. reflexivity.
  - apply (bool_decide_eq_true_1 _). vm_compute. reflexivity.
  - simpl. lia.
  - vm_compute. reflexivity.
  - apply Hout. apply (bool_decide_eq_true_1 _). vm_compute. reflexivity.
Qed.

(** C2, amended. Priority is enforced between the statistical recognizer
    and the regex matcher only: a regex match that overlaps the span of any
    entity of the statistical recognizer is not in the output, wherever it
    comes in the order of the matches, and a statistical entity labelled
    PERSON, DATE or MONEY is in the output when no earlier statistical entity
    has its span.  Every entity of the custom model with a custom label is in
    the output, whatever it overlaps. *)
Theorem lexicon_yields_to_statistical (env : Env) (nlp : Model) (txt p : pystr) :
  spacy_load env (py "en_core_web_lg") = Ok nlp ->
  extract_all_entities env txt p = Ok (map ent (t_extract_all env nlp txt p))
  /\ (forall mt e,
        mt ∈ lexicon_candidates env txt -> e ∈ nlp txt ->
        overlaps (match_span mt) (ent_span e) = true ->
        lexicon_entry mt ∉ t_extract_all env nlp txt p)
  /\ (forall pre e suf c,
        nlp txt = pre ++ e :: suf -> stat_entry e = Some c ->
        (forall e', e' ∈ pre -> ent_span e' <> ent_span e) ->
        c ∈ t_extract_all env nlp txt p)
  /\ (forall custom_nlp e,
        path_exists env p = true -> spacy_load env p = Ok custom_nlp ->
        e ∈ custom_nlp txt -> label_ e ∈ CUSTOM_ENTITIES ->
        custom_entry e ∈ t_extract_all env nlp txt p).
Proof.
  intros Hload. split; [apply extract_all_erasure, Hload|]. split; [|split].
  - intros mt e _ He Ho Hin. unfold t_extract_all in Hin.
    apply elem_of_app in Hin as [Hin|Hin].
    + pose proof (lexicon_clear env nlp txt _ e Hin eq_refl He) as Hclear.
      simpl in Hclear. congruence.
    + apply custom_block_src in Hin. discriminate.
  - intros pre e suf c Heq Hc Hfirst. unfold t_extract_all, t_run_extract.
    apply elem_of_app. left. apply accepted_fold_match_mono.
    rewrite Heq. apply first_at_span_accepted; assumption.
  - intros custom_nlp e Hex Hl He Hlab. unfold t_extract_all, t_custom_block.
    rewrite Hex, Hl. apply elem_of_app. right. unfold t_extract_custom.
    apply list_elem_of_In, in_flat_map. exists e. split; [apply list_elem_of_In, He|].
    case_decide; [left; reflexivity|contradiction].
Qed.

Lemma lexicon_yields_to_statistical_witness :
  spacy_load ex_env (py "en_core_web_lg") = Ok ex_nlp
  /\ custom_entry john_client ∈ t_extract_all ex_env ex_nlp ex_text ex_path.
Proof.
  split; [reflexivity|].
  destruct (lexicon_yields_to_statistical ex_env ex_nlp ex_text ex_path eq_refl)
    as (_ & _ & _ & Hcustom).
  apply (Hcustom ex_custom_nlp john_client); try reflexivity.
  - apply list_elem_of_singleton. reflexivity.
  - apply (bool_decide_eq_true_1 _). vm_compute. reflexivity.
Defined.

(** C8. When nothing exists at the custom model's path, or the model is
    there and loading it raises, [extract_all_entities] returns what
    [extract_entities] returns: the entities of the standard extractor and
    nothing else, and no exception beyond one the standard extractor itself
    would raise. *)
Theorem custom_model_unavailable (env : Env) (txt p : pystr) :
  path_exists env p = false
  \/ (path_exists env p = true /\ exists e, spacy_load env p = Raise e) ->
  extract_all_entities env txt p = extract_entities env txt
  /\ forall nlp, spacy_load env (py "en_core_web_lg") = Ok nlp ->
       extract_all_entities env txt p = Ok (entities (run_extract env nlp txt)).
Proof.
  intros H.
  assert (Hblock : custom_block env txt p = []).
  { unfold custom_block. destruct H as [->|[-> [e ->]]]; reflexivity. }
  assert (Heq : extract_all_entities env txt p = extract_entities env txt).
  { unfold extract_all_entities. rewrite Hblock.
    destruct (extract_entities env txt) as [l|e]; simpl; [|reflexivity].
    rewrite app_nil_r. reflexivity. }
  split; [exact Heq|].
  intros nlp Hl. rewrite Heq. unfold extract_entities. rewrite Hl. reflexivity.
Qed.

Lemma custom_model_unavailable_witness :
  path_exists ex_env_absent ex_path = false
  /\ extract_all_entities ex_env_absent ex_text ex_path =
       Ok [ {| entity := py "John Smith"; type := py "Name" |};
            {| entity := py "trust"; type := py "LegalTerm" |} ].
Proof.
  split; [reflexivity|].
  destruct (custom_model_unavailable ex_env_absent ex_text ex_path (or_introl eq_refl))
    as [-> _].
  vm_compute. reflexivity.
Defined.

End NERFacts.

(** * Facts about the JSON encoder and decoder *)

Module JsonFacts.
Import Json.

Local Open Scope N_scope.

(** [lia] with the quotients and remainders of the goal spelled out. *)
Ltac lia_div := zify; Z.to_euclidean_division_equations; lia.

Lemma hex_value_digit d : d < 16 -> hex_value (hex_digit d) = Some d.
Proof.
  intros H. unfold hex_digit, hex_value.
  destruct (N.ltb_spec d 10).
  - assert ((48 <=? 48 + d) && (48 + d <=? 57) = true) as ->.
    { apply andb_true_iff; split; apply N.leb_le; lia. }
    f_equal. lia.
  - assert ((48 <=? 87 + d) && (87 + d <=? 57) = false) as ->.
    { apply andb_false_iff; right; apply N.leb_gt; lia. }
    assert ((97 <=? 87 + d) && (87 + d <=? 102) = true) as ->.
    { apply andb_true_iff; split; apply N.leb_le; lia. }
    f_equal. lia.
Qed.

Lemma decode_u_escape n rest :
  n < 65536 ->
  exists h1 h2 h3 h4,
    u_escape n ++ rest = 92 :: 117 :: h1 :: h2 :: h3 :: h4 :: rest
    /\ decode_hex4 h1 h2 h3 h4 = Some n.
Proof.
  intros H. unfold u_escape. do 4 eexists. split; [reflexivity|].
  unfold decode_hex4.
  rewrite !hex_value_digit by (apply N.mod_lt; lia). simpl.
  f_equal. lia_div.
Qed.

Lemma shift_land_zero k y : y < 1024 -> N.land (N.shiftl k 10) y = 0.
Proof.
  intros H. apply N.bits_inj. intros i. rewrite N.land_spec, N.bits_0.
  destruct (N.ltb_spec i 10).
  - rewrite N.shiftl_spec_low by assumption. reflexivity.
  - assert (N.testbit y i = false) as ->; [|apply andb_false_r].
    destruct (N.eq_dec y 0) as [->|Hy]; [apply N.bits_0|].
    apply N.bits_above_log2. apply N.log2_lt_pow2; [lia|].
    eapply N.lt_le_trans; [exact H|]. change 1024 with (2^10).
    apply N.pow_le_mono_r; lia.
Qed.

Lemma lor_add k y : y < 1024 -> N.lor (N.shiftl k 10) y = k * 1024 + y.
Proof.
  intros H. rewrite <- N.lxor_lor by (apply shift_land_zero, H).
  rewrite <- N.add_nocarry_lxor by (apply shift_land_zero, H).
  rewrite N.shiftl_mul_pow2. reflexivity.
Qed.

Lemma surrogate_halves c :
  65536 <= c -> c < 1114112 ->
  let n := c - 65536 in
  let s1 := N.lor 55296 (N.land (N.shiftr n 10) 1023) in
  let s2 := N.lor 56320 (N.land n 1023) in
  s1 < 65536 /\ s2 < 65536 /\ is_high s1 = true /\ is_low s2 = true
  /\ 65536 + N.lor (N.shiftl (s1 - 55296) 10) (s2 - 56320) = c.
Proof.
  intros Hlo Hhi n s1 s2.
  assert (Hn : n < 1048576) by (unfold n; lia_div).
  assert (Hq : N.shiftr n 10 = n / 1024) by (rewrite N.shiftr_div_pow2; reflexivity).
  assert (Hland : forall x, N.land x 1023 = x mod 1024).
  { intros x. change 1023 with (N.ones 10). rewrite N.land_ones. reflexivity. }
  assert (Hq' : n / 1024 < 1024).
  { apply N.Div0.div_lt_upper_bound. lia_div. }
  assert (Hr : n mod 1024 < 1024) by (apply N.mod_lt; lia_div).
  assert (H1 : s1 = 55296 + n / 1024).
  { unfold s1. rewrite Hq, Hland, (N.mod_small _ _ Hq').
    change 55296 with (N.shiftl 54 10). rewrite lor_add by exact Hq'.
    reflexivity. }
  assert (H2 : s2 = 56320 + n mod 1024).
  { unfold s2. rewrite Hland.
    change 56320 with (N.shiftl 55 10). rewrite lor_add by exact Hr.
    reflexivity. }
  rewrite H1, H2. repeat split.
  - lia_div.
  - lia_div.
  - unfold is_high. apply andb_true_iff; split; apply N.leb_le; lia_div.
  - unfold is_low. apply andb_true_iff; split; apply N.leb_le; lia_div.
  - replace (55296 + n / 1024 - 55296) with (n / 1024) by lia_div.
    replace (56320 + n mod 1024 - 56320) with (n mod 1024) by lia_div.
    rewrite lor_add by exact Hr.
    pose proof (N.div_mod n 1024). unfold n in *. lia_div.
Qed.

#[local] Arguments N.eqb : simpl never.
#[local] Arguments N.ltb : simpl never.
#[local] Arguments N.leb : simpl never.

Lemma scanstring_simple e ch r :
  backslash e = Some ch -> scanstring (92 :: e :: r) = push ch (scanstring r).
Proof.
  intros H. simpl. change (92 =? 34) with false. change (92 =? 92) with true. simpl.
  destruct (N.eqb_spec e 117) as [->|_].
  - vm_compute in H. discriminate.
  - rewrite H. reflexivity.
Qed.

Lemma scanstring_plain c r :
  c <> 34 -> c <> 92 -> 32 <= c -> scanstring (c :: r) = push c (scanstring r).
Proof.
  intros H1 H2 H3. simpl.
  destruct (N.eqb_spec c 34); [contradiction|].
  destruct (N.eqb_spec c 92); [contradiction|].
  destruct (N.ltb_spec c 32); [lia|]. reflexivity.
Qed.

Lemma scanstring_u h1 h2 h3 h4 uni r2 :
  decode_hex4 h1 h2 h3 h4 = Some uni ->
  is_high uni = false \/ next_ok r2 ->
  scanstring (92 :: 117 :: h1 :: h2 :: h3 :: h4 :: r2) = push uni (scanstring r2).
Proof.
  intros Hd Hnext. simpl. change (92 =? 34) with false. change (92 =? 92) with true.
  change (117 =? 117) with true. simpl. rewrite Hd.
  destruct r2 as [|b [|u r3]]; try reflexivity.
  destruct Hnext as [Hh|Hn].
  - rewrite Hh. reflexivity.
  - unfold next_ok in Hn.
    destruct (is_high uni); simpl; [|reflexivity].
    destruct ((b =? 92) && (u =? 117)); [|reflexivity].
    destruct r3 as [|g1 [|g2 [|g3 [|g4 r4]]]]; try contradiction.
    destruct (decode_hex4 g1 g2 g3 g4); [|contradiction].
    rewrite Hn. reflexivity.
Qed.

Lemma scanstring_pair h1 h2 h3 h4 g1 g2 g3 g4 uni uni2 r4 :
  decode_hex4 h1 h2 h3 h4 = Some uni -> decode_hex4 g1 g2 g3 g4 = Some uni2 ->
  is_high uni = true -> is_low uni2 = true ->
  scanstring (92 :: 117 :: h1 :: h2 :: h3 :: h4 :: 92 :: 117 :: g1 :: g2 :: g3 :: g4 :: r4)
  = push (65536 + N.lor (N.shiftl (uni - 55296) 10) (uni2 - 56320)) (scanstring r4).
Proof.
  intros Hd Hd2 Hh Hl. simpl. change (92 =? 34) with false. change (92 =? 92) with true.
  change (117 =? 117) with true. simpl. rewrite Hd, Hh. simpl. rewrite Hd2, Hl.
  reflexivity.
Qed.

Lemma escape_char_cases c :
  c < 1114112 ->
  (exists e, escape_char c = [92; e] /\ backslash e = Some c /\ e <> 117)
  \/ (escape_char c = [c] /\ c <> 34 /\ c <> 92 /\ 32 <= c)
  \/ (escape_char c = u_escape c /\ c < 65536)
  \/ (65536 <= c
      /\ escape_char c =
           u_escape (N.lor 55296 (N.land (N.shiftr (c - 65536) 10) 1023))
           ++ u_escape (N.lor 56320 (N.land (c - 65536) 1023))).
Proof.
  intros Hc. unfold escape_char.
  destruct (N.eqb_spec c 34) as [->|H34]; [left; exists 34; repeat split; discriminate|].
  destruct (N.eqb_spec c 92) as [->|H92]; [left; exists 92; repeat split; discriminate|].
  destruct (N.eqb_spec c 10) as [->|H10]; [left; exists 110; repeat split; discriminate|].
  destruct (N.eqb_spec c 13) as [->|H13]; [left; exists 114; repeat split; discriminate|].
  destruct (N.eqb_spec c 9) as [->|H9]; [left; exists 116; repeat split; discriminate|].
  destruct (N.eqb_spec c 12) as [->|H12]; [left; exists 102; repeat split; discriminate|].
  destruct (N.eqb_spec c 8) as [->|H8]; [left; exists 98; repeat split; discriminate|].
  destruct (N.leb_spec 32 c); simpl.
  - destruct (N.leb_spec c 126); simpl.
    + right; left. repeat split; assumption.
    + destruct (N.ltb_spec c 65536).
      * right; right; left. split; [reflexivity|assumption].
      * right; right; right. split; [assumption|reflexivity].
  - destruct (N.ltb_spec c 65536); [|lia].
    right; right; left. split; [reflexivity|assumption].
Qed.

Lemma high_not_low u : is_high u = true -> is_low u = false.
Proof.
  unfold is_high, is_low. intros H. apply andb_true_iff in H as [_ H].
  apply N.leb_le in H. apply andb_false_iff. left. apply N.leb_gt. lia.
Qed.

Lemma next_ok_escape (s : pystr) (rest : pystr) :
  valid_str s = true ->
  match s with c2 :: _ => is_low c2 = false | [] => True end ->
  next_ok (flat_map escape_char s ++ 34 :: rest).
Proof.
  intros Hv Hlow. destruct s as [|c2 s'].
  - simpl. destruct rest; [exact I|]. change (34 =? 92) with false. exact I.
  - simpl in Hv. apply andb_true_iff in Hv as [Hc2 _]. apply N.ltb_lt in Hc2.
    simpl. rewrite <- app_assoc.
    set (R := flat_map escape_char s' ++ 34 :: rest).
    assert (HR : exists u r3, R = u :: r3).
    { unfold R. destruct (flat_map escape_char s'); simpl; eauto. }
    destruct (escape_char_cases c2 Hc2)
      as [(e & -> & _ & He)|[(-> & _ & H92 & _)|[(-> & Hlt)|(Hge & ->)]]].
    + simpl. change (92 =? 92) with true. simpl.
      destruct (N.eqb_spec e 117); [contradiction|exact I].
    + destruct HR as (u & r3 & ->). simpl.
      destruct (N.eqb_spec c2 92); [contradiction|exact I].
    + destruct (decode_u_escape c2 R Hlt) as (h1 & h2 & h3 & h4 & -> & Hd).
      simpl. change (92 =? 92) with true. change (117 =? 117) with true. simpl.
      rewrite Hd. exact Hlow.
    + destruct (surrogate_halves c2 Hge Hc2) as (H1 & H2 & Hh & _).
      rewrite <- app_assoc.
      destruct (decode_u_escape _ (u_escape (N.lor 56320 (N.land (c2 - 65536) 1023)) ++ R) H1)
        as (h1 & h2 & h3 & h4 & -> & Hd).
      simpl. change (92 =? 92) with true. change (117 =? 117) with true. simpl.
      rewrite Hd. apply high_not_low, Hh.
Qed.

Lemma scanstring_escape (s rest : pystr) :
  str_ok s = true ->
  scanstring (flat_map escape_char s ++ 34 :: rest) = Ok (s, rest).
Proof.
  unfold str_ok. intros H. apply andb_true_iff in H as [Hv Hp].
  induction s as [|c s IH].
  - simpl. reflexivity.
  - assert (Hvs : valid_str s = true /\ c < 1114112).
    { simpl in Hv. apply andb_true_iff in Hv as [Hc Hv]. apply N.ltb_lt in Hc. auto. }
    destruct Hvs as [Hvs Hc].
    assert (Hps : pair_free s = true).
    { simpl in Hp. destruct s; [reflexivity|]. apply andb_true_iff in Hp as [_ Hp]. exact Hp. }
    specialize (IH Hvs Hps).
    change (flat_map escape_char (c :: s)) with (escape_char c ++ flat_map escape_char s).
    rewrite <- app_assoc.
    set (R := flat_map escape_char s ++ 34 :: rest) in *.
    destruct (escape_char_cases c Hc)
      as [(e & -> & Hb & He)|[(-> & H34 & H92 & H32)|[(-> & Hlt)|(Hge & ->)]]].
    + change ([92; e] ++ R) with (92 :: e :: R).
      rewrite (scanstring_simple e c R Hb), IH. reflexivity.
    + change ([c] ++ R) with (c :: R).
      rewrite (scanstring_plain c R H34 H92 H32), IH. reflexivity.
    + destruct (decode_u_escape c R Hlt) as (h1 & h2 & h3 & h4 & -> & Hd).
      rewrite (scanstring_u _ _ _ _ c R Hd), IH; [reflexivity|].
      destruct (is_high c) eqn:Hh; [right|left; reflexivity].
      apply next_ok_escape; [exact Hvs|].
      destruct s as [|c2 s']; [exact I|].
      simpl in Hp. apply andb_true_iff in Hp as [Hp _].
      rewrite Hh in Hp. simpl in Hp. apply negb_true_iff in Hp. exact Hp.
    + destruct (surrogate_halves c Hge Hc) as (H1 & H2 & Hh & Hl & Hcomb).
      rewrite <- app_assoc.
      destruct (decode_u_escape _ R H2) as (g1 & g2 & g3 & g4 & -> & Hd2).
      destruct (decode_u_escape _ (92 :: 117 :: g1 :: g2 :: g3 :: g4 :: R) H1)
        as (h1 & h2 & h3 & h4 & -> & Hd1).
      rewrite (scanstring_pair _ _ _ _ _ _ _ _ _ _ R Hd1 Hd2 Hh Hl), IH, Hcomb.
      reflexivity.
Qed.

Local Open Scope nat_scope.

Lemma PyObj_nested_ind (P : PyObj -> Prop) :
  P PNone -> (forall b, P (PBool b)) -> (forall s, P (PStr s)) ->
  (forall l, Forall P l -> P (PList l)) ->
  (forall d, Forall (fun kv => P kv.2) d -> P (PDict d)) ->
  forall o, P o.
Proof.
  intros HN HB HS HL HD. fix IH 1. intros [| b | s | l | d].
  - exact HN.
  - apply HB.
  - apply HS.
  - apply HL. induction l as [|v l IHl]; constructor; [apply IH|exact IHl].
  - apply HD. induction d as [|[k v] d IHd]; constructor; [apply IH|exact IHd].
Qed.

Lemma iterencode_head level o :
  exists c r, iterencode level o = c :: r /\ value_start c = true.
Proof.
  destruct o as [| [|] | s | [|v l] | [|kv d]]; simpl; eauto.
Qed.

Lemma value_start_not_ws c : value_start c = true -> is_ws c = false.
Proof.
  unfold value_start, is_ws. intros H.
  repeat (apply orb_true_iff in H as [H|H]); apply N.eqb_eq in H; subst c; reflexivity.
Qed.

Lemma skip_ws_stop c r : is_ws c = false -> skip_ws (c :: r) = c :: r.
Proof. intros H. simpl. rewrite H. reflexivity. Qed.

Lemma skip_ws_indent level x : skip_ws (newline_indent level ++ x) = skip_ws x.
Proof.
  unfold newline_indent. simpl. change (is_ws 10) with true. simpl.
  induction (level + (level + 0)) as [|n IH]; simpl; [reflexivity|].
  change (is_ws 32) with true. simpl. exact IH.
Qed.

Lemma skip_ws_value level o x :
  skip_ws (iterencode level o ++ x) = iterencode level o ++ x.
Proof.
  destruct (iterencode_head level o) as (c & r & -> & Hc).
  apply skip_ws_stop, value_start_not_ws, Hc.
Qed.

#[local] Arguments newline_indent : simpl never.
#[local] Arguments skip_ws : simpl never.

Lemma scan_once_str fuel s rest :
  str_ok s = true ->
  scan_once (S fuel) (encode_basestring_ascii s ++ rest) = Ok (PStr s, rest).
Proof.
  intros Hs. unfold encode_basestring_ascii. rewrite <- !app_assoc. simpl.
  change (34 =? 34)%N with true. simpl.
  rewrite (scanstring_escape s rest Hs). reflexivity.
Qed.

Lemma array_items_ok level (vs : list PyObj) :
  forall (v : PyObj) rest fuel,
  Forall reads_back (v :: vs) -> items_ok (v :: vs) -> need_items (v :: vs) <= fuel ->
  array_items fuel
    (iterencode (S level) v
     ++ flat_map (fun v => [44%N] ++ newline_indent (S level) ++ iterencode (S level) v) vs
     ++ newline_indent level ++ 93%N :: rest)
  = Ok (v :: vs, rest).
Proof.
  induction vs as [|v2 vs IH]; intros v rest fuel Hrb Hok Hfuel.
  - apply Forall_cons in Hrb as [Hv _]. destruct Hok as [Hokv _].
    simpl in Hfuel. destruct fuel as [|fuel]; [lia|].
    cbn [flat_map]. rewrite app_nil_l. cbn [array_items].
    rewrite (Hv (S level) _ fuel Hokv) by lia. cbn.
    rewrite skip_ws_indent. rewrite skip_ws_stop by reflexivity.
    change (93 =? 93)%N with true. cbn. reflexivity.
  - apply Forall_cons in Hrb as [Hv Hrb]. destruct Hok as [Hokv Hok].
    simpl in Hfuel. destruct fuel as [|fuel]; [lia|].
    cbn [array_items].
    rewrite (Hv (S level) _ fuel Hokv) by lia. cbn.
    rewrite skip_ws_stop by reflexivity.
    change (44 =? 93)%N with false. change (44 =? 44)%N with true. cbn.
    rewrite <- !app_assoc. rewrite skip_ws_indent, skip_ws_value.
    assert (Hf : need_items (v2 :: vs) <= fuel) by (simpl; lia).
    pose proof (IH v2 rest fuel Hrb Hok Hf) as E. cbn in E. rewrite E. reflexivity.
Qed.

Lemma skip_ws_ws c r : is_ws c = true -> skip_ws (c :: r) = skip_ws r.
Proof. intros H. unfold skip_ws at 1. rewrite H. reflexivity. Qed.

Lemma object_items_ok level (kvs : list (pystr * PyObj)) :
  forall (k : pystr) (v : PyObj) rest fuel,
  Forall (fun kv => reads_back kv.2) ((k, v) :: kvs) ->
  pairs_ok ((k, v) :: kvs) -> need_pairs ((k, v) :: kvs) <= fuel ->
  object_items fuel
    (flat_map escape_char k ++ 34%N :: 58%N :: 32%N :: iterencode (S level) v
     ++ flat_map (fun kv => [44%N] ++ newline_indent (S level)
                            ++ encode_basestring_ascii kv.1 ++ [58; 32]%N
                            ++ iterencode (S level) kv.2) kvs
     ++ newline_indent level ++ 125%N :: rest)
  = Ok ((k, v) :: kvs, rest).
Proof.
  induction kvs as [|[k2 v2] kvs IH]; intros k v rest fuel Hrb Hok Hfuel.
  - apply Forall_cons in Hrb as [Hv _]. destruct Hok as [[Hk Hokv] _].
    simpl in Hv, Hk, Hokv, Hfuel. destruct fuel as [|fuel]; [lia|].
    cbn [flat_map]. rewrite app_nil_l. cbn [object_items].
    rewrite (scanstring_escape k _ Hk). cbn.
    rewrite skip_ws_stop by reflexivity. change (58 =? 58)%N with true. cbn.
    rewrite skip_ws_ws by reflexivity. rewrite skip_ws_value.
    rewrite (Hv (S level) _ fuel Hokv) by lia. cbn.
    rewrite skip_ws_indent. rewrite skip_ws_stop by reflexivity.
    change (125 =? 125)%N with true. cbn. reflexivity.
  - apply Forall_cons in Hrb as [Hv Hrb]. destruct Hok as [[Hk Hokv] Hok].
    simpl in Hv, Hk, Hokv, Hfuel. destruct fuel as [|fuel]; [lia|].
    cbn [object_items].
    rewrite (scanstring_escape k _ Hk). cbn.
    rewrite skip_ws_stop by reflexivity. change (58 =? 58)%N with true. cbn.
    rewrite skip_ws_ws by reflexivity. rewrite skip_ws_value.
    rewrite (Hv (S level) _ fuel Hokv) by lia. cbn.
    rewrite skip_ws_stop by reflexivity.
    change (44 =? 125)%N with false. change (44 =? 44)%N with true. cbn.
    rewrite <- !app_assoc. rewrite skip_ws_indent.
    cbn. rewrite skip_ws_stop by reflexivity. change (34 =? 34)%N with true. cbn.
    rewrite <- !app_assoc. cbn.
    assert (Hf : need_pairs ((k2, v2) :: kvs) <= fuel) by (simpl in *; lia).
    pose proof (IH k2 v2 rest fuel Hrb Hok Hf) as E. cbn in E. rewrite E. reflexivity.
Qed.

Lemma dict_set_fresh (d : list (pystr * PyObj)) (k : pystr) (v : PyObj) :
  k ∉ map fst d -> dict_set d k v = d ++ [(k, v)].
Proof.
  induction d as [|[k' v'] d IH]; intros Hk; simpl; [reflexivity|].
  simpl in Hk. apply not_elem_of_cons in Hk as [Hne Hk].
  destruct (decide (k' = k)); [congruence|]. rewrite IH by exact Hk. reflexivity.
Qed.

Lemma dict_of_pairs_nodup (d : list (pystr * PyObj)) :
  NoDup (map fst d) -> dict_of_pairs d = d.
Proof.
  unfold dict_of_pairs. intros Hnd.
  assert (H : forall acc, NoDup (map fst (acc ++ d)) ->
            fold_left (fun d kv => dict_set d kv.1 kv.2) d acc = acc ++ d).
  { clear Hnd. induction d as [|[k v] d IH]; intros acc Hacc; simpl.
    - rewrite app_nil_r. reflexivity.
    - rewrite dict_set_fresh.
      + rewrite IH; rewrite <- app_assoc; [reflexivity|exact Hacc].
      + rewrite map_app in Hacc. apply NoDup_app in Hacc as (_ & Hdis & _).
        intros Hin. apply (Hdis k Hin). simpl. left. }
  apply (H []). exact Hnd.
Qed.

Lemma value_start_cases c :
  value_start c = true ->
  c = 34%N \/ c = 123%N \/ c = 91%N \/ c = 110%N \/ c = 116%N \/ c = 102%N.
Proof.
  unfold value_start. intros H.
  repeat (apply orb_true_iff in H as [H|H]); apply N.eqb_eq in H; tauto.
Qed.

#[local] Arguments dict_of_pairs : simpl never.

Theorem scan_once_iterencode (o : PyObj) : reads_back o.
Proof.
  induction o as [| b | s | l IHl | d IHd] using PyObj_nested_ind;
    intros level rest fuel Hok Hfuel; (destruct fuel as [|fuel]; [simpl in Hfuel; lia|]).
  - reflexivity.
  - destruct b; reflexivity.
  - apply scan_once_str, Hok.
  - destruct l as [|v vs]; [reflexivity|].
    change (need (PList (v :: vs))) with (S (need_items (v :: vs))) in Hfuel.
    change (obj_ok (PList (v :: vs))) with (items_ok (v :: vs)) in Hok.
    cbn [iterencode]. rewrite <- !app_assoc. cbn [app scan_once].
    change (91 =? 34)%N with false. change (91 =? 123)%N with false.
    change (91 =? 91)%N with true. cbn.
    rewrite skip_ws_indent, skip_ws_value.
    pose proof (array_items_ok level vs v rest fuel IHl Hok ltac:(lia)) as E.
    destruct (iterencode_head (S level) v) as (c & r & Hhead & Hc).
    rewrite Hhead in E |- *. cbn in E |- *.
    assert ((c =? 93)%N = false) as ->.
    { apply value_start_cases in Hc. apply N.eqb_neq.
      destruct Hc as [->|[->|[->|[->|[->| ->]]]]]; discriminate. }
    rewrite E. reflexivity.
  - destruct d as [|[k v] kvs]; [reflexivity|].
    change (need (PDict ((k, v) :: kvs))) with (S (need_pairs ((k, v) :: kvs))) in Hfuel.
    destruct Hok as [Hnd Hok].
    change (pairs_ok ((k, v) :: kvs)) in Hok.
    cbn [iterencode]. unfold encode_basestring_ascii at 1.
    rewrite <- !app_assoc. cbn [app scan_once fst snd].
    change (123 =? 34)%N with false. change (123 =? 123)%N with true. cbn.
    rewrite skip_ws_indent. rewrite skip_ws_stop by reflexivity.
    change (34 =? 125)%N with false. change (34 =? 34)%N with true. cbn.
    pose proof (object_items_ok level kvs k v rest fuel IHd Hok ltac:(lia)) as E.
    cbn in E. rewrite E. cbn.
    rewrite (dict_of_pairs_nodup ((k, v) :: kvs) Hnd). reflexivity.
Qed.

Lemma need_le_length level (o : PyObj) : need o <= length (iterencode level o).
Proof.
  revert level.
  induction o as [| b | s | l IHl | d IHd] using PyObj_nested_ind; intros level.
  - simpl. unfold py; simpl; lia.
  - destruct b; simpl; unfold py; simpl; lia.
  - simpl. unfold encode_basestring_ascii. simpl. lia.
  - destruct l as [|v vs]; [simpl; unfold py; simpl; lia|].
    change (need (PList (v :: vs))) with (S (need_items (v :: vs))).
    cbn [iterencode]. rewrite !length_app.
    apply Forall_cons in IHl as [Hv IHl]. specialize (Hv (S level)).
    assert (need_items vs
            <= length (flat_map (fun v0 => [44%N] ++ newline_indent (S level)
                                            ++ iterencode (S level) v0) vs)).
    { clear Hv. induction vs as [|v2 vs IH]; [simpl; lia|].
      apply Forall_cons in IHl as [Hv2 IHl]. specialize (IH IHl). specialize (Hv2 (S level)).
      cbn [flat_map need_items]. rewrite !length_app. cbn [length]. lia. }
    cbn [length need_items]. lia.
  - destruct d as [|[k v] kvs]; [simpl; unfold py; simpl; lia|].
    change (need (PDict ((k, v) :: kvs))) with (S (need_pairs ((k, v) :: kvs))).
    cbn [iterencode]. rewrite !length_app.
    apply Forall_cons in IHd as [Hv IHd]. simpl in Hv. specialize (Hv (S level)).
    assert (need_pairs kvs
            <= length (flat_map (fun kv : pystr * PyObj =>
                 [44%N] ++ newline_indent (S level) ++ encode_basestring_ascii kv.1
                 ++ [58; 32]%N ++ iterencode (S level) kv.2) kvs)).
    { clear Hv. induction kvs as [|[k2 v2] kvs IH]; [simpl; lia|].
      apply Forall_cons in IHd as [Hv2 IHd]. specialize (IH IHd). simpl in Hv2.
      specialize (Hv2 (S level)).
      cbn [flat_map need_pairs fst snd]. rewrite !length_app. cbn [length]. lia. }
    cbn [length need_pairs fst snd]. lia.
Qed.

(** Reading back what was written gives the value written. *)
Theorem loads_dumps (o : PyObj) : obj_ok o -> loads (dumps o) = Ok o.
Proof.
  intros Hok. unfold loads, dumps.
  destruct (iterencode_head 0 o) as (c & r & Hhead & Hc).
  assert (Hbom : bool_decide (head (iterencode 0 o) = Some 65279%N) = false).
  { rewrite Hhead. simpl. apply bool_decide_eq_false. intros [= ->]. discriminate. }
  rewrite Hbom.
  rewrite <- (app_nil_r (iterencode 0 o)) at 2. rewrite skip_ws_value.
  rewrite (scan_once_iterencode o 0 [] _ Hok).
  - reflexivity.
  - pose proof (need_le_length 0 o). lia.
Qed.

End JsonFacts.

(** * Facts about the evaluator *)

Module EvaluationFacts.
Import Json Evaluation JsonFacts.

(** **** The dataset as a Python value *)

Lemma entity_keys_nodup : NoDup [py "entity"; py "type"].
Proof. apply (bool_decide_eq_true_1 _). vm_compute. reflexivity. Qed.

Lemma case_keys_nodup : NoDup [py "text"; py "entities"].
Proof. apply (bool_decide_eq_true_1 _). vm_compute. reflexivity. Qed.

Lemma entities_obj_ok (ents : list Entity) :
  forallb (fun e => str_ok (entity e) && str_ok (type e)) ents = true ->
  items_ok (map entity_to_py ents).
Proof.
  induction ents as [|e ents IH]; intros H; simpl; [exact I|].
  simpl in H. apply andb_true_iff in H as [He H]. apply andb_true_iff in He as [H1 H2].
  split; [|apply IH, H].
  split; [apply entity_keys_nodup|]. repeat split; assumption.
Qed.

Lemma dataset_obj_ok (cases : list TestCase) :
  dataset_ok cases = true -> obj_ok (dataset_to_py cases).
Proof.
  unfold dataset_to_py. change (obj_ok (PList ?l)) with (items_ok l).
  induction cases as [|c cases IH]; intros H; simpl; [exact I|].
  simpl in H. apply andb_true_iff in H as [Hc H]. apply andb_true_iff in Hc as [Ht He].
  split; [|apply IH, H].
  split; [apply case_keys_nodup|].
  split; [split; [reflexivity|exact Ht]|].
  split; [|exact I]. split; [reflexivity|]. apply entities_obj_ok, He.
Qed.

Lemma entities_view (ents : list Entity) :
  mapM entity_of_py (map entity_to_py ents) = Ok ents.
Proof.
  induction ents as [|[e t] ents IH]; simpl; [reflexivity|].
  rewrite IH. reflexivity.
Qed.

(** Read through [test_case["text"]], [test_case["entities"]], [e["entity"]]
    and [e["type"]], the Python value of a dataset gives the dataset back. *)
Lemma dataset_view (cases : list TestCase) :
  cases_of_py (dataset_to_py cases) = Ok cases.
Proof.
  unfold cases_of_py, dataset_to_py.
  induction cases as [|[t ents] cases IH]; simpl; [reflexivity|].
  rewrite entities_view. simpl. rewrite IH. reflexivity.
Qed.

(** **** Paths *)

Lemma drop_while_all (f : N -> bool) (s : pystr) :
  (forall c, c ∈ s -> f c = true) -> drop_while f s = [].
Proof.
  induction s as [|c s IH]; intros H; simpl; [reflexivity|].
  rewrite (H c) by (left). apply IH. intros c' Hc'. apply H. right. exact Hc'.
Qed.

Lemma dirname_no_separator (p : pystr) : 47%N ∉ p -> os_path_dirname p = [].
Proof.
  intros Hp. unfold os_path_dirname.
  rewrite drop_while_all; [reflexivity|].
  intros c Hc. apply elem_of_reverse in Hc. apply negb_true_iff, N.eqb_neq.
  intros Heq. subst c. rewrite reverse_involutive in Hc. exact (Hp Hc).
Qed.

(** **** Loading and saving *)

(** C3, as stated, fails: with no file at the path, [load_test_dataset]
    returns normally and leaves the evaluator as it was; no [NotFound]
    reaches the caller. *)
Lemma load_missing_counterexample :
  os_path_exists empty_fs ex_file = false
  /\ load_test_dataset empty_fs new_evaluator ex_file = Ok new_evaluator
  /\ load_test_dataset empty_fs new_evaluator ex_file <> Raise FileNotFoundError.
Proof.
  assert (H : load_test_dataset empty_fs new_evaluator ex_file = Ok new_evaluator)
    by (vm_compute; reflexivity).
  split; [vm_compute; reflexivity|]. split; [exact H|]. rewrite H. discriminate.
Qed.

(** C3, amended. Loading from a path at which nothing exists raises
    nothing: the call returns and the evaluator, its test data included, is
    unchanged. *)
Theorem load_missing_is_silent (fs : FS) (self : NEREvaluator) (file_path : pystr) :
  os_path_exists fs file_path = false ->
  load_test_dataset fs self file_path = Ok self.
Proof. intros H. unfold load_test_dataset. rewrite H. reflexivity. Qed.

Lemma load_missing_is_silent_witness :
  os_path_exists empty_fs ex_file = false
  /\ load_test_dataset empty_fs (evaluator_with ex_dataset) ex_file
       = Ok (evaluator_with ex_dataset).
Proof.
  assert (H : os_path_exists empty_fs ex_file = false) by (vm_compute; reflexivity).
  split; [exact H|].
  apply (load_missing_is_silent empty_fs (evaluator_with ex_dataset) ex_file H).
Defined.

(** C10. Saving to a path without a slash raises: the directory to create
    is the empty string, [os.makedirs] fails on it with [FileNotFoundError],
    and nothing is written. *)
Theorem save_bare_filename_raises (fs : FS) (self : NEREvaluator) (file_path : pystr) :
  47%N ∉ file_path ->
  os_path_dirname file_path = []
  /\ save_test_dataset fs self file_path = Raise FileNotFoundError.
Proof.
  intros H. pose proof (dirname_no_separator file_path H) as Hd.
  split; [exact Hd|]. unfold save_test_dataset. rewrite Hd. reflexivity.
Qed.

Lemma save_bare_filename_raises_witness :
(47%N ∉ py "out.json")
  /\ save_test_dataset empty_fs (evaluator_with ex_dataset) (py "out.json")
       = Raise FileNotFoundError.
Proof.
  assert (H : 47%N ∉ py "out.json").
  { apply (bool_decide_eq_true_1 _). vm_compute. reflexivity. }
  split; [exact H|].
  apply (save_bare_filename_raises empty_fs (evaluator_with ex_dataset) (py "out.json") H).
Defined.

Lemma save_written (fs fs' : FS) (self : NEREvaluator) (file_path : pystr) :
  save_test_dataset fs self file_path = Ok fs' ->
  files fs' !! file_path = Some (dumps (test_data self)).
Proof.
  unfold save_test_dataset. destruct (os_makedirs fs (os_path_dirname file_path)) as [fs1|];
    simpl; [|discriminate].
  unfold open_write. destruct file_path as [|c r]; [discriminate|].
  destruct (_ || _); [discriminate|]. intros [= <-]. simpl. apply lookup_insert_eq.
Qed.

Lemma load_written (fs : FS) (loader : NEREvaluator) (file_path : pystr) (o : PyObj) :
  files fs !! file_path = Some (dumps o) -> obj_ok o ->
  load_test_dataset fs loader file_path
  = Ok {| test_data := o; results := results loader |}.
Proof.
  intros Hfile Hok. unfold load_test_dataset, os_path_exists, open_read.
  rewrite Hfile. rewrite bool_decide_eq_true_2 by eauto. simpl.
  rewrite (loads_dumps o Hok). reflexivity.
Qed.

(** C6, as stated, fails: a dataset whose text holds the two surrogate code
    points U+D83D U+DE00 has a non-ASCII character and a case without
    entities, is saved without error, and comes back with the single
    character U+1F600 in their place. *)
Lemma roundtrip_counterexample :
  has_non_ascii surrogate_dataset = true
  /\ has_empty_case surrogate_dataset = true
  /\ save_then_load empty_fs (evaluator_with surrogate_dataset) new_evaluator ex_file
       = Ok (evaluator_with surrogate_loaded)
  /\ test_data (evaluator_with surrogate_loaded)
       <> test_data (evaluator_with surrogate_dataset).
Proof.
  split; [vm_compute; reflexivity|]. split; [vm_compute; reflexivity|].
  split; [vm_compute; reflexivity|].
  intros H. vm_compute in H. discriminate.
Qed.

(** C6, amended. For every dataset with a non-ASCII character in some
    case and an empty entity list in some case, in whose strings no high
    surrogate is directly followed by a low surrogate: when saving it to a
    path succeeds, loading from that path gives the dataset back, field for
    field.  The proof uses neither the non-ASCII character nor the empty
    list: the round trip holds with or without them. *)
Theorem save_load_roundtrip (fs fs' : FS) (self loader : NEREvaluator)
    (file_path : pystr) (cases : list TestCase) :
  test_data self = dataset_to_py cases ->
  dataset_ok cases = true ->
  has_non_ascii cases = true ->
  has_empty_case cases = true ->
  save_test_dataset fs self file_path = Ok fs' ->
  load_test_dataset fs' loader file_path
    = Ok {| test_data := dataset_to_py cases; results := results loader |}
  /\ cases_of_py (dataset_to_py cases) = Ok cases.
Proof.
  intros Hdata Hok _ _ Hsave. split; [|apply dataset_view].
  apply save_written in Hsave. rewrite Hdata in Hsave.
  apply load_written; [exact Hsave|]. apply dataset_obj_ok, Hok.
Qed.

Lemma save_load_roundtrip_witness :
  dataset_ok ex_dataset = true
  /\ has_non_ascii ex_dataset = true
  /\ has_empty_case ex_dataset = true
  /\ exists fs',
       save_test_dataset empty_fs (evaluator_with ex_dataset) ex_file = Ok fs'
       /\ load_test_dataset fs' new_evaluator ex_file = Ok (evaluator_with ex_dataset).
Proof.
  split; [vm_compute; reflexivity|]. split; [vm_compute; reflexivity|].
  split; [vm_compute; reflexivity|].
  destruct (save_test_dataset empty_fs (evaluator_with ex_dataset) ex_file) as [fs'|e] eqn:Hsave;
    [|vm_compute in Hsave; discriminate].
  exists fs'. split; [reflexivity|].
  apply (save_load_roundtrip empty_fs fs' (evaluator_with ex_dataset) new_evaluator
           ex_file ex_dataset eq_refl); try (vm_compute; reflexivity).
  exact Hsave.
Defined.

(** C4. On the ground truth John Smith/Name, March 15, 2024/Date and the
    prediction John Smith/Name, March 15/Date, [evaluate_predictions] gives
    precision, recall and F1 all 1 for Name, all 0 for Date and all 1/2 for
    the key "overall", and no other key. *)
Theorem scenario_scores :
  evaluate_predictions [john_name; march_2024] [john_name; march]
  = {[ py "Name" := {| precision := 1; recall := 1; f1 := 1 |};
       py "Date" := {| precision := 0; recall := 0; f1 := 0 |};
       py "overall" := {| precision := 1 # 2; recall := 1 # 2; f1 := 1 # 2 |} ]}.
Proof. vm_compute. reflexivity. Qed.

(** C5. On two empty lists [evaluate_predictions] returns the dict with the
    single key "overall", whose three scores are 0. *)
Theorem empty_scores :
  evaluate_predictions [] []
  = {[ py "overall" := {| precision := 0; recall := 0; f1 := 0 |} ]}.
Proof. vm_compute. reflexivity. Qed.

(** **** Aggregation over the cases *)

Lemma fold_record_scores_lookup (items : list (pystr * Scores))
    (acc : gmap pystr Lists) (k : pystr) :
  NoDup items.*1 ->
  fold_left record_scores items acc !! k =
    match (list_to_map items : gmap pystr Scores) !! k with
    | Some sc => Some (snoc_scores (default no_lists (acc !! k)) sc)
    | None => acc !! k
    end.
Proof.
  revert acc. induction items as [|[k0 s0] items IH]; intros acc Hnd; simpl.
  - rewrite lookup_empty. reflexivity.
  - apply NoDup_cons in Hnd as [Hk0 Hnd]. rewrite (IH _ Hnd).
    destruct (decide (k0 = k)) as [->|Hne].
    + rewrite (not_elem_of_list_to_map_1 _ k Hk0).
      rewrite !lookup_insert_eq. reflexivity.
    + rewrite !lookup_insert_ne by exact Hne. reflexivity.
Qed.

Lemma record_case_lookup (f : pystr -> list Entity) (acc : gmap pystr Lists) (c : TestCase) (k : pystr) :
  record_case f acc c !! k =
    match evaluate_predictions (tc_entities c) (f (tc_text c)) !! k with
    | Some sc => Some (snoc_scores (default no_lists (acc !! k)) sc)
    | None => acc !! k
    end.
Proof.
  unfold record_case. rewrite fold_record_scores_lookup.
  - rewrite list_to_map_to_list. reflexivity.
  - apply NoDup_fst_map_to_list.
Qed.

Lemma extend_snoc (l : Lists) (sc : Scores) (ss : list Scores) : extend (snoc_scores l sc) ss = extend l (sc :: ss).
Proof. unfold extend, snoc_scores. simpl. rewrite <- !app_assoc. reflexivity. Qed.

Lemma fold_record_case_lookup (f : pystr -> list Entity) (cases : list TestCase) (acc : gmap pystr Lists)
    (k : pystr) :
  fold_left (record_case f) cases acc !! k =
    match appearing f k cases with
    | [] => acc !! k
    | ss => Some (extend (default no_lists (acc !! k)) ss)
    end.
Proof.
  revert acc. induction cases as [|c cases IH]; intros acc; simpl; [reflexivity|].
  rewrite IH, record_case_lookup. unfold appearing. simpl.
  destruct (evaluate_predictions (tc_entities c) (f (tc_text c)) !! k) as [sc|]; simpl.
  - fold (appearing f k cases). destruct (appearing f k cases) as [|s1 ss].
    + unfold extend, snoc_scores. reflexivity.
    + rewrite extend_snoc. reflexivity.
  - reflexivity.
Qed.

(** [sum(values) / len(values)] is the sum of the values over their number. *)
Lemma mean_sum (values : list Q) :
  (mean values == fold_right Qplus 0 values / inject_Z (Z.of_nat (length values)))%Q.
Proof.
  unfold mean. rewrite Qred_correct.
  assert (H : forall l a, (fold_left Qplus l a == a + fold_right Qplus 0 l)%Q).
  { induction l as [|x l IH]; intros a; simpl.
    - ring.
    - rewrite IH. ring. }
  rewrite H. apply Qdiv_comp; [ring|reflexivity].
Qed.

(** C7. [evaluate_model] returns, and stores in [self.results], a dict
    that has a key exactly when the key is in the result of some case, and
    whose scores at that key are the means ([sum/len]) of the scores of the
    cases in whose result the key is: a case without the key adds no term. *)
Theorem evaluate_model_averages (self : NEREvaluator)
    (prediction_function : pystr -> list Entity) (cases : list TestCase) :
  cases_of_py (test_data self) = Ok cases ->
  exists final,
    evaluate_model self prediction_function
      = Ok ({| test_data := test_data self; results := final |}, final)
    /\ forall k,
         final !! k =
           match appearing prediction_function k cases with
           | [] => None
           | ss => Some {| precision := mean (map precision ss);
                           recall := mean (map recall ss);
                           f1 := mean (map f1 ss) |}
           end.
Proof.
  intros Hcases. exists (evaluate_cases cases prediction_function). split.
  - unfold evaluate_model. rewrite Hcases. reflexivity.
  - intros k. unfold evaluate_cases. rewrite lookup_fmap, fold_record_case_lookup.
    rewrite lookup_empty. destruct (appearing prediction_function k cases); reflexivity.
Qed.

Lemma evaluate_model_averages_witness :
  cases_of_py (test_data ex_evaluator) = Ok ex_cases
  /\ exists final,
       evaluate_model ex_evaluator ex_predict
         = Ok ({| test_data := test_data ex_evaluator; results := final |}, final)
       /\ final !! py "Name" = Some {| precision := 1; recall := 1; f1 := 1 |}
       /\ final !! py "overall" = Some {| precision := 1 # 2; recall := 1 # 2; f1 := 1 # 2 |}.
Proof.
  split; [vm_compute; reflexivity|].
  destruct (evaluate_model_averages ex_evaluator ex_predict ex_cases)
    as (final & Hrun & Hfinal); [vm_compute; reflexivity|].
  exists final. split; [exact Hrun|]. rewrite !Hfinal. split; vm_compute; reflexivity.
Defined.

End EvaluationFacts.

(** * Facts about the scores *)

Module ScoringFacts.
Import Json Evaluation Scoring EvaluationFacts.

Lemma fold_insert_lookup (f : pystr -> Scores) (g : pystr -> bool) (l : list pystr)
    (acc : gmap pystr Scores) (k : pystr) :
  fold_left (fun (m : gmap pystr Scores) x => if g x then <[x := f x]> m else m) l acc !! k
  = if bool_decide (k ∈ l) && g k then Some (f k) else acc !! k.
Proof.
  revert acc. induction l as [|x l IH]; intros acc; simpl.
  - reflexivity.
  - rewrite IH. clear IH.
    assert (Hstep : (if g x then <[x := f x]> acc else acc) !! k
                    = if bool_decide (x = k) && g k then Some (f k) else acc !! k).
    { destruct (decide (x = k)) as [->|Hne].
      - rewrite bool_decide_eq_true_2 by reflexivity. simpl.
        destruct (g k); [apply lookup_insert_eq|reflexivity].
      - rewrite bool_decide_eq_false_2 by exact Hne. simpl.
        destruct (g x); [apply lookup_insert_ne; exact Hne|reflexivity]. }
    rewrite Hstep. clear Hstep.
    destruct (g k); rewrite ?andb_false_r; [|reflexivity]. rewrite !andb_true_r.
    destruct (decide (k ∈ l)) as [Hin|Hin].
    + rewrite !bool_decide_eq_true_2; [reflexivity|right; exact Hin|exact Hin].
    + rewrite (bool_decide_eq_false_2 _ Hin).
      destruct (decide (x = k)) as [->|Hne].
      * rewrite !bool_decide_eq_true_2; [reflexivity|left|reflexivity].
      * rewrite !bool_decide_eq_false_2; [reflexivity| |exact Hne].
        intros H. apply elem_of_cons in H as [H|H]; [congruence|contradiction].
Qed.

Lemma type_in_entity_types (t p : list Entity) (k : pystr) :
  k ∈ entity_types t p <-> exists e, e ∈ t ++ p /\ type e = k.
Proof.
  unfold entity_types. rewrite elem_of_list_to_set, list_elem_of_fmap. split.
  - intros (e & -> & He). eauto.
  - intros (e & He & <-). eauto.
Qed.

Lemma text_in_all_entities (t p : list Entity) (x : pystr) :
  x ∈ all_entities t p <-> exists e, e ∈ t ++ p /\ entity e = x.
Proof.
  unfold all_entities. rewrite elem_of_list_to_set, list_elem_of_fmap. split.
  - intros (e & -> & He). eauto.
  - intros (e & He & <-). eauto.
Qed.

(** What [evaluate_predictions] holds at a key. *)
Lemma universe_nonempty (t p : list Entity) (k : pystr) :
  k ∈ entity_types t p -> (0 < length (elements (all_entities t p)))%nat.
Proof.
  intros Hin. apply type_in_entity_types in Hin as (e & He & _).
  assert (Hx : entity e ∈ elements (all_entities t p)).
  { apply elem_of_elements, text_in_all_entities. eauto. }
  destruct (elements (all_entities t p)); [inversion Hx|simpl; lia].
Qed.

Lemma evaluate_predictions_lookup (t p : list Entity) (k : pystr) :
  evaluate_predictions t p !! k =
    if decide (k = py "overall") then Some (overall_scores t p)
    else if decide (k ∈ entity_types t p) then Some (type_scores t p k)
    else None.
Proof.
  unfold evaluate_predictions.
  destruct (decide (k = py "overall")) as [->|Hne].
  - rewrite lookup_insert_eq. reflexivity.
  - rewrite lookup_insert_ne by congruence.
    pose proof (fold_insert_lookup (type_scores t p)
      (fun x => (0 <? length (typed_labels t x (elements (all_entities t p))))%nat)
      (elements (entity_types t p)) ∅ k) as E.
    etrans; [exact E|]. clear E. rewrite lookup_empty.
    destruct (decide (k ∈ entity_types t p)) as [Hin|Hin].
    + rewrite bool_decide_eq_true_2 by (apply elem_of_elements; exact Hin).
      unfold typed_labels. rewrite length_map.
      pose proof (universe_nonempty t p k Hin) as Hlen.
      apply Nat.ltb_lt in Hlen. rewrite Hlen. reflexivity.
    + rewrite bool_decide_eq_false_2 by (rewrite elem_of_elements; exact Hin).
      reflexivity.
Qed.

(** **** Counting *)

Lemma tp_sum_le_pred (yt yp : list nat) : (tp_sum yt yp <= count_ones yp)%nat.
Proof.
  unfold tp_sum, count_ones. revert yp.
  induction yt as [|a yt IH]; intros [|b yp]; simpl; try lia.
  specialize (IH yp). rewrite !filter_cons. simpl.
  destruct (Nat.eqb a 1), (Nat.eqb b 1); simpl; lia.
Qed.

Lemma tp_sum_comm (a b : list nat) : tp_sum a b = tp_sum b a.
Proof.
  unfold tp_sum. revert b. induction a as [|x a IH]; intros [|y b]; simpl; try reflexivity.
  specialize (IH b). rewrite !filter_cons. simpl.
  destruct (Nat.eqb x 1), (Nat.eqb y 1); simpl; lia.
Qed.

Lemma tp_sum_le_true (yt yp : list nat) : (tp_sum yt yp <= count_ones yt)%nat.
Proof. rewrite tp_sum_comm. apply tp_sum_le_pred. Qed.

Lemma tp_sum_diag (y : list nat) : tp_sum y y = count_ones y.
Proof.
  unfold tp_sum, count_ones. induction y as [|a y IH]; simpl; [reflexivity|].
  rewrite !filter_cons. simpl. destruct (Nat.eqb a 1); simpl; lia.
Qed.

Lemma prf_divide_unit (num den : nat) : (num <= den)%nat -> in_unit (prf_divide num den).
Proof.
  intros H. unfold prf_divide, in_unit. destruct den as [|n]; [split; discriminate|].
  rewrite Qred_correct. unfold Qle. simpl Qnum. simpl Qden. lia.
Qed.

Lemma prf_divide_same (n : nat) : (0 < n)%nat -> prf_divide n n = 1%Q.
Proof.
  intros H. unfold prf_divide. destruct n as [|n]; [lia|].
  change 1%Q with (Qred 1). apply Qred_complete. unfold Qeq. simpl Qnum. simpl Qden. lia.
Qed.

Lemma prf_divide_zero (den : nat) : prf_divide 0 den = 0%Q.
Proof.
  unfold prf_divide. destruct den as [|n]; [reflexivity|].
  change 0%Q with (Qred 0). apply Qred_complete. reflexivity.
Qed.

Lemma scores_of_unit (yt yp : list nat) : scores_in_unit (scores_of yt yp).
Proof.
  assert (Hp : in_unit (precision_score yt yp)) by apply prf_divide_unit, tp_sum_le_pred.
  assert (Hr : in_unit (recall_score yt yp)) by apply prf_divide_unit, tp_sum_le_true.
  split; [exact Hp|]. split; [exact Hr|]. simpl. unfold f1_score.
  set (p := precision_score yt yp) in *. set (r := recall_score yt yp) in *.
  destruct Hp as [Hp0 Hp1], Hr as [Hr0 Hr1].
  destruct (Qeq_bool (p + r) 0) eqn:Hz; [split; discriminate|].
  apply Qeq_bool_neq in Hz.
  assert (Hpos : (0 < p + r)%Q).
  { destruct (Qlt_le_dec 0 (p + r)) as [H|H]; [exact H|].
    exfalso. apply Hz. lra. }
  unfold in_unit. rewrite Qred_correct. split.
  - apply Qle_shift_div_l; [exact Hpos|]. nra.
  - apply Qle_shift_div_r; [exact Hpos|]. nra.
Qed.

Lemma evaluate_predictions_unit (true_entities pred_entities : list Entity)
    (k : pystr) (s : Scores) :
  evaluate_predictions true_entities pred_entities !! k = Some s -> scores_in_unit s.
Proof.
  rewrite evaluate_predictions_lookup. repeat case_decide; intros [= <-];
    apply scores_of_unit.
Qed.

(** X1: every score that [evaluate_predictions] returns lies between 0 and 1. *)
Theorem evaluate_predictions_bounds (true_entities pred_entities : list Entity)
    (k : pystr) (s : Scores) :
  evaluate_predictions true_entities pred_entities !! k = Some s -> scores_in_unit s.
Proof. apply evaluate_predictions_unit. Qed.

Lemma evaluate_predictions_bounds_witness :
  evaluate_predictions [john_name; march_2024] [john_name; march] !! py "Date"
    = Some all_zeros
  /\ scores_in_unit all_zeros.
Proof.
  assert (H : evaluate_predictions [john_name; march_2024] [john_name; march] !! py "Date"
              = Some all_zeros) by (vm_compute; reflexivity).
  split; [exact H|].
  exact (evaluate_predictions_bounds _ _ _ _ H).
Defined.


(** X2: the keys are the types of the two lists and "overall". *)
Theorem evaluate_predictions_keys (true_entities pred_entities : list Entity) :
  dom (evaluate_predictions true_entities pred_entities)
  = entity_types true_entities pred_entities ∪ {[py "overall"]}.
Proof.
  apply set_eq. intros k. rewrite elem_of_dom, evaluate_predictions_lookup.
  rewrite elem_of_union, elem_of_singleton.
  destruct (decide (k = py "overall")) as [->|Hne].
  - split; eauto.
  - destruct (decide (k ∈ entity_types true_entities pred_entities)) as [Hin|Hin].
    + split; eauto.
    + split; [intros [x Hx]; discriminate|tauto].
Qed.
Lemma count_ones_pos (h : pystr -> bool) (universe : list pystr) (x : pystr) :
  x ∈ universe -> h x = true ->
  (0 < count_ones (map (fun e => indicator (h e)) universe))%nat.
Proof.
  unfold count_ones. induction universe as [|u universe IH]; intros Hx Hh; [inversion Hx|].
  simpl. rewrite filter_cons. apply elem_of_cons in Hx as [<-|Hx].
  - rewrite Hh. simpl. lia.
  - specialize (IH Hx Hh). case_decide; simpl; lia.
Qed.

Lemma tp_sum_none (h1 h2 : pystr -> bool) (universe : list pystr) :
  (forall x, x ∈ universe -> h1 x = true -> h2 x = true -> False) ->
  tp_sum (map (fun e => indicator (h1 e)) universe)
         (map (fun e => indicator (h2 e)) universe) = 0%nat.
Proof.
  unfold tp_sum. induction universe as [|u universe IH]; intros H; [reflexivity|].
  assert (IH' := IH (fun x Hx => H x (list_elem_of_further _ _ _ Hx))). clear IH.
  cbn [map combine]. rewrite filter_cons. cbn [fst snd].
  destruct (h1 u) eqn:H1, (h2 u) eqn:H2; simpl; try exact IH'.
  exfalso. apply (H u); [left|exact H1|exact H2].
Qed.

Lemma scores_of_same (y : list nat) : (0 < count_ones y)%nat -> scores_of y y = all_ones.
Proof.
  intros H. unfold scores_of, f1_score, precision_score, recall_score.
  rewrite tp_sum_diag, (prf_divide_same _ H). reflexivity.
Qed.

Lemma scores_of_no_tp (yt yp : list nat) : tp_sum yt yp = 0%nat -> scores_of yt yp = all_zeros.
Proof.
  intros H. unfold scores_of, f1_score, precision_score, recall_score.
  rewrite H, !prf_divide_zero. reflexivity.
Qed.

Lemma scores_of_swap (a b : list nat) : scores_of b a = swap_scores (scores_of a b).
Proof.
  unfold scores_of, swap_scores, f1_score, precision_score, recall_score. simpl.
  rewrite (tp_sum_comm b a).
  set (p := prf_divide (tp_sum a b) (count_ones b)).
  set (r := prf_divide (tp_sum a b) (count_ones a)).
  f_equal.
  assert (Hsum : (r + p == p + r)%Q) by ring.
  destruct (Qeq_bool (p + r) 0) eqn:Hz.
  - apply Qeq_bool_eq in Hz.
    assert (Qeq_bool (r + p) 0 = true) as -> by (apply Qeq_eq_bool; rewrite Hsum; exact Hz).
    reflexivity.
  - apply Qeq_bool_neq in Hz.
    destruct (Qeq_bool (r + p) 0) eqn:Hz'.
    + apply Qeq_bool_eq in Hz'. exfalso. apply Hz. rewrite <- Hsum. exact Hz'.
    + apply Qred_complete. rewrite Hsum. apply Qdiv_comp; [ring|reflexivity].
Qed.

Lemma same_lists_all_ones (ents : list Entity) (k : pystr) (s : Scores) :
  evaluate_predictions ents ents !! k = Some s -> ents <> [] -> s = all_ones.
Proof.
  rewrite evaluate_predictions_lookup. intros H Hne.
  destruct (decide (k = py "overall")) as [->|Hk].
  - injection H as <-. unfold overall_scores, text_labels.
    destruct ents as [|e ents]; [congruence|].
    apply scores_of_same.
    apply (count_ones_pos (fun x => existsb (fun y : Entity => bool_decide (entity y = x))
             (e :: ents)) _ (entity e)).
    + apply elem_of_elements, text_in_all_entities. exists e. split; [left|reflexivity].
    + apply existsb_exists. exists e. split; [left; reflexivity|].
      apply bool_decide_eq_true_2. reflexivity.
  - destruct (decide (k ∈ entity_types ents ents)) as [Hin|Hin]; [|discriminate].
    injection H as <-. unfold type_scores, typed_labels.
    apply type_in_entity_types in Hin as (e & He & Hty).
    assert (He' : e ∈ ents) by (apply elem_of_app in He as [He|He]; exact He).
    apply scores_of_same.
    apply (count_ones_pos (fun x => existsb (fun y : Entity =>
             bool_decide (entity y = x) && bool_decide (type y = k)) ents) _ (entity e)).
    + apply elem_of_elements, text_in_all_entities. eauto.
    + apply existsb_exists. exists e. split; [apply list_elem_of_In, He'|].
      rewrite !bool_decide_eq_true_2 by (reflexivity || exact Hty). reflexivity.
Qed.

(** X3: predictions equal to a ground truth that is not empty score 1 under
    every key. *)
Theorem perfect_prediction (ents : list Entity) (k : pystr) (s : Scores) :
  evaluate_predictions ents ents !! k = Some s -> ents <> [] -> s = all_ones.
Proof. apply same_lists_all_ones. Qed.

Lemma perfect_prediction_witness :
  evaluate_predictions [john_name; march_2024] [john_name; march_2024] !! py "Date"
    = Some all_ones
  /\ [john_name; march_2024] <> [].
Proof.
  assert (Hne : [john_name; march_2024] <> []) by discriminate.
  split; [|exact Hne].
  destruct (evaluate_predictions [john_name; march_2024] [john_name; march_2024] !! py "Date")
    as [s|] eqn:H; [|vm_compute in H; discriminate].
  f_equal. exact (perfect_prediction _ _ _ H Hne).
Defined.


(** X4: exchanging ground truth and prediction exchanges precision and
    recall and keeps F1. *)
Theorem swap_arguments (true_entities pred_entities : list Entity) :
  evaluate_predictions pred_entities true_entities
  = swap_scores <$> evaluate_predictions true_entities pred_entities.
Proof.
  apply map_eq. intros k. rewrite lookup_fmap, !evaluate_predictions_lookup.
  assert (Ht : entity_types pred_entities true_entities
               = entity_types true_entities pred_entities).
  { unfold entity_types. apply set_eq. intros x.
    rewrite !elem_of_list_to_set, !map_app, !elem_of_app. tauto. }
  assert (Ha : all_entities pred_entities true_entities
               = all_entities true_entities pred_entities).
  { unfold all_entities. apply set_eq. intros x.
    rewrite !elem_of_list_to_set, !map_app, !elem_of_app. tauto. }
  rewrite Ht. unfold overall_scores, type_scores. rewrite Ha.
  repeat case_decide; simpl; try reflexivity; f_equal; apply scores_of_swap.
Qed.

(** X5: with no entity (text and type) in both lists, every entity type
    scores 0. *)
Theorem disjoint_prediction (true_entities pred_entities : list Entity)
    (k : pystr) (s : Scores) :
  (forall e, e ∈ true_entities -> e ∉ pred_entities) ->
  k <> py "overall" ->
  evaluate_predictions true_entities pred_entities !! k = Some s -> s = all_zeros.
Proof.
  intros Hdis Hk. rewrite evaluate_predictions_lookup.
  destruct (decide (k = py "overall")); [contradiction|].
  case_decide; [|discriminate]. intros [= <-].
  unfold type_scores, typed_labels. apply scores_of_no_tp.
  apply (tp_sum_none
    (fun x => existsb (fun y : Entity => bool_decide (entity y = x) && bool_decide (type y = k))
                      true_entities)
    (fun x => existsb (fun y : Entity => bool_decide (entity y = x) && bool_decide (type y = k))
                      pred_entities)).
  intros x _ H1 H2.
  apply existsb_exists in H1 as (a & Ha & Hab). apply existsb_exists in H2 as (b & Hb & Hbb).
  apply andb_true_iff in Hab as [Ha1 Ha2]. apply andb_true_iff in Hbb as [Hb1 Hb2].
  apply bool_decide_eq_true in Ha1, Ha2, Hb1, Hb2.
  assert (a = b) by (destruct a, b; simpl in *; congruence). subst b.
  apply (Hdis a); apply list_elem_of_In; assumption.
Qed.

Lemma disjoint_prediction_witness :
  (forall e, e ∈ [march_2024] -> e ∉ [march])
  /\ py "Date" <> py "overall"
  /\ evaluate_predictions [march_2024] [march] !! py "Date" = Some all_zeros.
Proof.
  assert (Hdis : forall e, e ∈ [march_2024] -> e ∉ [march]).
  { intros e He Hp. apply list_elem_of_singleton in He, Hp. subst e. discriminate. }
  assert (Hk : py "Date" <> py "overall") by discriminate.
  split; [exact Hdis|]. split; [exact Hk|].
  destruct (evaluate_predictions [march_2024] [march] !! py "Date") as [s|] eqn:H;
    [|vm_compute in H; discriminate].
  f_equal. exact (disjoint_prediction _ _ _ _ Hdis Hk H).
Defined.

Lemma existsb_same_members {A} (g : A -> bool) (l l' : list A) :
  (forall e, e ∈ l <-> e ∈ l') -> existsb g l = existsb g l'.
Proof.
  intros H. apply eq_true_iff_eq. rewrite !existsb_exists. split.
  - intros (x & Hx & Hg). exists x. split; [|exact Hg]. apply list_elem_of_In, H, list_elem_of_In, Hx.
  - intros (x & Hx & Hg). exists x. split; [|exact Hg]. apply list_elem_of_In, H, list_elem_of_In, Hx.
Qed.

(** X6: the result depends on the two lists only through the entities they
    hold: order and repetitions do not matter. *)
Theorem same_members_same_scores (t t' p p' : list Entity) :
  (forall e, e ∈ t <-> e ∈ t') -> (forall e, e ∈ p <-> e ∈ p') ->
  evaluate_predictions t p = evaluate_predictions t' p'.
Proof.
  intros Ht Hp.
  assert (Happ : forall e, e ∈ t ++ p <-> e ∈ t' ++ p').
  { intros e. rewrite !elem_of_app, Ht, Hp. reflexivity. }
  assert (Hty : entity_types t p = entity_types t' p').
  { apply set_eq. intros x. rewrite !type_in_entity_types.
    split; intros (e & He & Hx); exists e; split; try exact Hx; apply Happ, He. }
  assert (Hall : all_entities t p = all_entities t' p').
  { apply set_eq. intros x. rewrite !text_in_all_entities.
    split; intros (e & He & Hx); exists e; split; try exact Hx; apply Happ, He. }
  apply map_eq. intros k. rewrite !evaluate_predictions_lookup, Hty.
  unfold overall_scores, type_scores, typed_labels, text_labels. rewrite Hall.
  repeat case_decide; try reflexivity; f_equal; f_equal; apply map_ext; intros x;
    f_equal; apply existsb_same_members; assumption.
Qed.

Lemma same_members_same_scores_witness :
  evaluate_predictions [john_name; march_2024] [march]
  = evaluate_predictions [march_2024; john_name; march_2024] [march; march].
Proof.
  apply same_members_same_scores; intros e;
    rewrite ?elem_of_cons, ?elem_of_nil; tauto.
Defined.


Lemma existsb_text (ents : list Entity) (x : pystr) :
  existsb (fun y : Entity => bool_decide (entity y = x)) ents
  = bool_decide (x ∈ map entity ents).
Proof.
  apply eq_true_iff_eq. rewrite existsb_exists, bool_decide_eq_true, list_elem_of_fmap.
  split.
  - intros (y & Hy & Hx). apply bool_decide_eq_true in Hx. exists y.
    split; [congruence|apply list_elem_of_In, Hy].
  - intros (y & -> & Hy). exists y. split; [apply list_elem_of_In, Hy|].
    apply bool_decide_eq_true_2. reflexivity.
Qed.

(** X7: the "overall" scores depend on the texts alone, not on the types. *)
Theorem overall_ignores_types (t t' p p' : list Entity) :
  (forall x, x ∈ map entity t <-> x ∈ map entity t') ->
  (forall x, x ∈ map entity p <-> x ∈ map entity p') ->
  evaluate_predictions t p !! py "overall" = evaluate_predictions t' p' !! py "overall".
Proof.
  intros Ht Hp. rewrite !evaluate_predictions_lookup.
  destruct (decide (py "overall" = py "overall")); [|congruence]. f_equal.
  assert (Hall : all_entities t p = all_entities t' p').
  { unfold all_entities. apply set_eq. intros x.
    rewrite !elem_of_list_to_set, !map_app, !elem_of_app, Ht, Hp. reflexivity. }
  unfold overall_scores, text_labels. rewrite Hall.
  f_equal; apply map_ext; intros x; rewrite !existsb_text; f_equal;
    apply bool_decide_ext; auto.
Qed.

Lemma overall_ignores_types_witness :
  evaluate_predictions [march_2024] [{| entity := py "March 15, 2024"; type := py "Name" |}]
    !! py "overall"
  = evaluate_predictions [march_2024] [march_2024] !! py "overall".
Proof.
  apply overall_ignores_types; intros x; reflexivity.
Defined.


(** **** Over a dataset *)

Lemma evaluate_cases_lookup (f : pystr -> list Entity) (cases : list TestCase) (k : pystr) :
  evaluate_cases cases f !! k =
    match appearing f k cases with
    | [] => None
    | ss => Some (average (extend no_lists ss))
    end.
Proof.
  unfold evaluate_cases. rewrite lookup_fmap, fold_record_case_lookup, lookup_empty.
  destruct (appearing f k cases); reflexivity.
Qed.

Lemma sum_unit (l : list Q) :
  Forall in_unit l ->
  (0 <= fold_right Qplus 0 l)%Q /\ (fold_right Qplus 0 l <= inject_Z (Z.of_nat (length l)))%Q.
Proof.
  induction 1 as [|q l [Hq0 Hq1] _ [IH0 IH1]]; simpl fold_right; simpl length.
  - split; discriminate.
  - rewrite Nat2Z.inj_succ, <- Z.add_1_r, inject_Z_plus. change (inject_Z 1) with 1%Q.
    split; lra.
Qed.

Lemma mean_unit (l : list Q) : Forall in_unit l -> in_unit (mean l).
Proof.
  intros H. destruct (sum_unit l H) as [H0 H1]. unfold in_unit. rewrite mean_sum.
  destruct l as [|q l].
  - simpl. split; discriminate.
  - assert (Hn : (0 < inject_Z (Z.of_nat (length (q :: l))))%Q).
    { change 0%Q with (inject_Z 0). rewrite <- Zlt_Qlt. simpl length. lia. }
    split.
    + apply Qle_shift_div_l; [exact Hn|]. lra.
    + apply Qle_shift_div_r; [exact Hn|]. lra.
Qed.

Lemma appearing_in (f : pystr -> list Entity) (k : pystr) (cases : list TestCase) (s : Scores) :
  s ∈ appearing f k cases ->
  exists c, c ∈ cases
    /\ evaluate_predictions (tc_entities c) (f (tc_text c)) !! k = Some s.
Proof.
  unfold appearing. intros H. apply list_elem_of_omap in H as (c & Hc & Hs). eauto.
Qed.

(** X8: every score that [evaluate_model] returns lies between 0 and 1. *)
Theorem evaluate_model_bounds (self self' : NEREvaluator) (f : pystr -> list Entity)
    (final : gmap pystr Scores) (k : pystr) (s : Scores) :
  evaluate_model self f = Ok (self', final) -> final !! k = Some s -> scores_in_unit s.
Proof.
  unfold evaluate_model. destruct (cases_of_py (test_data self)) as [cases|]; simpl;
    [|discriminate].
  intros [= _ <-]. rewrite evaluate_cases_lookup.
  destruct (appearing f k cases) as [|s1 ss] eqn:Happ; [discriminate|]. intros [= <-].
  assert (Hall : Forall scores_in_unit (s1 :: ss)).
  { apply Forall_forall. intros x Hx. rewrite <- Happ in Hx.
    apply appearing_in in Hx as (c & _ & Hx). eapply evaluate_predictions_unit, Hx. }
  rewrite Forall_forall in Hall.
  unfold average, extend, scores_in_unit.
  cbn [precision recall f1 precisions recalls f1s no_lists app].
  repeat split; apply mean_unit; apply Forall_forall; intros q Hq;
    apply list_elem_of_fmap in Hq as (x & -> & Hx);
    destruct (Hall x Hx) as (Hp & Hr & Hf); assumption.
Qed.

Lemma evaluate_model_bounds_witness :
  exists self' final s,
    evaluate_model ex_evaluator ex_predict = Ok (self', final)
    /\ final !! py "overall" = Some s /\ scores_in_unit s.
Proof.
  destruct (evaluate_model ex_evaluator ex_predict) as [[self' final]|] eqn:Hrun;
    [|vm_compute in Hrun; discriminate].
  destruct (final !! py "overall") as [s|] eqn:Hs.
  - exists self', final, s. split; [reflexivity|]. split; [exact Hs|].
    exact (evaluate_model_bounds _ _ _ _ _ _ Hrun Hs).
  - exfalso. vm_compute in Hrun. injection Hrun as _ <-. vm_compute in Hs. discriminate.
Defined.

(** X9: on an empty dataset [evaluate_model] returns the empty dict, without
    even the key "overall"; on any other dataset "overall" is there. *)
Theorem overall_key_needs_a_case (self : NEREvaluator) (f : pystr -> list Entity)
    (cases : list TestCase) :
  cases_of_py (test_data self) = Ok cases ->
  exists final,
    evaluate_model self f = Ok ({| test_data := test_data self; results := final |}, final)
    /\ (cases = [] -> final = ∅)
    /\ (cases <> [] -> is_Some (final !! py "overall")).
Proof.
  intros Hc. exists (evaluate_cases cases f). split; [|split].
  - unfold evaluate_model. rewrite Hc. reflexivity.
  - intros ->. unfold evaluate_cases. simpl. apply fmap_empty.
  - intros Hne. rewrite evaluate_cases_lookup. destruct cases as [|c cases]; [congruence|].
    unfold appearing. cbn [omap list_omap]. rewrite evaluate_predictions_lookup.
    destruct (decide (py "overall" = py "overall")); [|congruence]. simpl. eauto.
Qed.

Lemma overall_key_needs_a_case_witness :
  cases_of_py (test_data new_evaluator) = Ok []
  /\ exists final,
       evaluate_model new_evaluator ex_predict
         = Ok ({| test_data := test_data new_evaluator; results := final |}, final)
       /\ final = ∅.
Proof.
  split; [reflexivity|].
  destruct (overall_key_needs_a_case new_evaluator ex_predict [] eq_refl)
    as (final & Hrun & Hempty & _).
  exists final. split; [exact Hrun|]. apply Hempty. reflexivity.
Defined.


Lemma mean_ones (l : list Q) : l <> [] -> Forall (fun q => q = 1%Q) l -> mean l = 1%Q.
Proof.
  intros Hne Hall. unfold mean.
  transitivity (Qred 1); [|reflexivity]. apply Qred_complete.
  rewrite <- Qred_correct. fold (mean l). rewrite mean_sum.
  assert (Hsum : (fold_right Qplus 0 l == inject_Z (Z.of_nat (length l)))%Q).
  { clear Hne. induction Hall as [|q l -> _ IH]; [reflexivity|].
    simpl fold_right. simpl length. rewrite IH, Nat2Z.inj_succ, <- Z.add_1_r, inject_Z_plus.
    change (inject_Z 1) with 1%Q. ring. }
  rewrite Hsum. apply Qmult_inv_r.
  destruct l as [|q l]; [congruence|]. simpl length.
  unfold Qeq, inject_Z. cbn [Qnum Qden]. lia.
Qed.

(** X10: when every case has an entity and the predictor returns the ground
    truth of every case, every score of [evaluate_model] is 1. *)
Theorem perfect_predictor (self : NEREvaluator) (f : pystr -> list Entity)
    (cases : list TestCase) :
  cases_of_py (test_data self) = Ok cases ->
  (forall c, c ∈ cases -> tc_entities c <> [] /\ f (tc_text c) = tc_entities c) ->
  exists final,
    evaluate_model self f = Ok ({| test_data := test_data self; results := final |}, final)
    /\ forall k s, final !! k = Some s -> s = all_ones.
Proof.
  intros Hc Hperfect. exists (evaluate_cases cases f). split.
  - unfold evaluate_model. rewrite Hc. reflexivity.
  - intros k s. rewrite evaluate_cases_lookup.
    destruct (appearing f k cases) as [|s1 ss] eqn:Happ; [discriminate|]. intros [= <-].
    assert (Hall : forall x, x ∈ s1 :: ss -> x = all_ones).
    { intros x Hx. rewrite <- Happ in Hx. apply appearing_in in Hx as (c & Hcin & Hx).
      destruct (Hperfect c Hcin) as [Hne Hf]. rewrite Hf in Hx.
      apply (same_lists_all_ones _ _ _ Hx Hne). }
    unfold average, extend, all_ones.
    cbn [precision recall f1 precisions recalls f1s no_lists app].
    f_equal; apply mean_ones; try discriminate; apply Forall_forall; intros q Hq;
      apply list_elem_of_fmap in Hq as (x & -> & Hx); rewrite (Hall x Hx); reflexivity.
Qed.

Lemma perfect_predictor_witness :
  cases_of_py (test_data ex_evaluator) = Ok ex_cases
  /\ exists final,
       evaluate_model ex_evaluator
         (fun txt => if decide (txt = py "John Smith signed.") then [john_name]
                     else [march_2024])
         = Ok ({| test_data := test_data ex_evaluator; results := final |}, final)
       /\ forall k s, final !! k = Some s -> s = all_ones.
Proof.
  assert (Hc : cases_of_py (test_data ex_evaluator) = Ok ex_cases) by (vm_compute; reflexivity).
  split; [exact Hc|].
  apply (perfect_predictor ex_evaluator _ ex_cases Hc).
  intros c Hin. unfold ex_cases in Hin.
  apply elem_of_cons in Hin as [->|Hin]; [split; [discriminate|reflexivity]|].
  apply list_elem_of_singleton in Hin. subst c. split; [discriminate|reflexivity].
Defined.

End ScoringFacts.

(** * More facts about the dataset files *)

Module StoreFacts.
Import Json Evaluation JsonFacts EvaluationFacts StoreExamples.

(** X11: whatever Python value the test data is (strings in order, keys
    distinct), a successful save followed by a load gives it back: unknown
    fields and all. *)
Theorem save_load_any_data (fs fs' : FS) (self loader : NEREvaluator) (file_path : pystr) :
  obj_ok (test_data self) ->
  save_test_dataset fs self file_path = Ok fs' ->
  load_test_dataset fs' loader file_path
  = Ok {| test_data := test_data self; results := results loader |}.
Proof.
  intros Hok Hsave. apply load_written; [|exact Hok]. apply save_written in Hsave. exact Hsave.
Qed.

Lemma save_load_any_data_witness :
  obj_ok annotated_data
  /\ exists fs',
       save_test_dataset empty_fs annotated_evaluator ex_file = Ok fs'
       /\ load_test_dataset fs' new_evaluator ex_file = Ok annotated_evaluator.
Proof.
  assert (Hok : obj_ok annotated_data).
  { unfold annotated_data. cbn [obj_ok map fst snd].
    repeat split; try (apply (bool_decide_eq_true_1 _)); vm_compute; reflexivity. }
  split; [exact Hok|].
  destruct (save_test_dataset empty_fs annotated_evaluator ex_file) as [fs'|e] eqn:Hsave;
    [|vm_compute in Hsave; discriminate].
  exists fs'. split; [reflexivity|].
  exact (save_load_any_data empty_fs fs' annotated_evaluator new_evaluator ex_file Hok Hsave).
Defined.


Lemma skip_ws_all (s : pystr) : forallb is_ws s = true -> skip_ws s = [].
Proof.
  induction s as [|c s IH]; simpl; [reflexivity|].
  intros H. apply andb_true_iff in H as [Hc H]. rewrite Hc. apply IH, H.
Qed.

(** X12: a file that exists and holds nothing but white space makes
    [load_test_dataset] raise [JSONDecodeError]. *)
Theorem load_blank_file_raises (fs : FS) (self : NEREvaluator) (file_path content : pystr) :
  files fs !! file_path = Some content ->
  forallb is_ws content = true ->
  load_test_dataset fs self file_path = Raise JSONDecodeError.
Proof.
  intros Hfile Hws. unfold load_test_dataset, os_path_exists, open_read.
  rewrite Hfile. rewrite bool_decide_eq_true_2 by eauto. simpl.
  unfold loads.
  assert (Hbom : bool_decide (head content = Some 65279%N) = false).
  { apply bool_decide_eq_false. destruct content as [|c r]; [discriminate|].
    simpl in Hws. apply andb_true_iff in Hws as [Hc _]. simpl. intros [= ->]. discriminate. }
  rewrite Hbom, (skip_ws_all content Hws). reflexivity.
Qed.

Lemma load_blank_file_raises_witness :
  files blank_fs !! blank_file = Some [10; 32; 32; 10]%N
  /\ load_test_dataset blank_fs new_evaluator blank_file = Raise JSONDecodeError.
Proof.
  assert (H : files blank_fs !! blank_file = Some [10; 32; 32; 10]%N)
    by (vm_compute; reflexivity).
  split; [exact H|].
  exact (load_blank_file_raises blank_fs new_evaluator blank_file _ H eq_refl).
Defined.


(** X13: [add_test_case] on a dataset appends the case in the documented
    format, and the evaluation then reads the old cases followed by the new
    one. *)
Theorem add_test_case_appends (self : NEREvaluator) (cases : list TestCase)
    (txt : pystr) (ents : list Entity) :
  test_data self = dataset_to_py cases ->
  exists self',
    add_test_case self txt ents = Ok self'
    /\ test_data self' = dataset_to_py (cases ++ [{| tc_text := txt; tc_entities := ents |}])
    /\ results self' = results self
    /\ cases_of_py (test_data self')
       = Ok (cases ++ [{| tc_text := txt; tc_entities := ents |}]).
Proof.
  intros Hdata. unfold add_test_case. rewrite Hdata. unfold dataset_to_py.
  eexists. split; [reflexivity|]. cbn [test_data results].
  assert (Heq : PList (map case_to_py cases
                       ++ [case_to_py {| tc_text := txt; tc_entities := ents |}])
                = dataset_to_py (cases ++ [{| tc_text := txt; tc_entities := ents |}])).
  { unfold dataset_to_py. rewrite map_app. reflexivity. }
  split; [exact Heq|]. split; [reflexivity|]. rewrite Heq. apply dataset_view.
Qed.

Lemma add_test_case_appends_witness :
  test_data (evaluator_with ex_dataset) = dataset_to_py ex_dataset
  /\ exists self',
       add_test_case (evaluator_with ex_dataset) (py "Signed by John Smith") [john_name]
         = Ok self'
       /\ cases_of_py (test_data self')
          = Ok (ex_dataset ++ [{| tc_text := py "Signed by John Smith";
                                  tc_entities := [john_name] |}]).
Proof.
  split; [reflexivity|].
  destruct (add_test_case_appends (evaluator_with ex_dataset) ex_dataset
              (py "Signed by John Smith") [john_name] eq_refl)
    as (self' & Hadd & _ & _ & Hview).
  exists self'. split; [exact Hadd|exact Hview].
Defined.


End StoreFacts.

(** * Facts about the shape of the extraction output *)

Module NERShapeFacts.
Import NER NERFacts NERShape.

Lemma step_ent_shape (st : State) (e : Ent) :
  exists new, entities (step_ent st e) = entities st ++ new
    /\ (length new <= 1)%nat
    /\ Forall (fun x => type x ∈ statistical_types
                        /\ entity x = text e /\ standard_type (label_ e) = Some (type x)) new.
Proof.
  unfold step_ent, standard_type.
  destruct (decide (_ ∈ processed_spans st)).
  { exists []. rewrite app_nil_r. split; [reflexivity|]. split; [simpl; lia|constructor]. }
  repeat case_decide; simpl;
    try (eexists [_]; split; [reflexivity|]; split; [simpl; lia|];
         constructor; [|constructor]; simpl; split; [|split; reflexivity];
         apply (bool_decide_eq_true_1 _); vm_compute; reflexivity).
  exists []. rewrite app_nil_r. split; [reflexivity|]. split; [simpl; lia|constructor].
Qed.

Lemma ner_pass_shape (ents : list Ent) (st : State) :
  exists stat, entities (ner_pass ents st) = entities st ++ stat
    /\ (length stat <= length ents)%nat
    /\ Forall (fun x => type x ∈ statistical_types
                 /\ exists e, e ∈ ents /\ entity x = text e
                              /\ standard_type (label_ e) = Some (type x)) stat.
Proof.
  unfold ner_pass. revert st. induction ents as [|e ents IH]; intros st; simpl.
  - exists []. rewrite app_nil_r. split; [reflexivity|]. split; [simpl; lia|constructor].
  - destruct (IH (step_ent st e)) as (stat & Heq & Hlen & Hall).
    destruct (step_ent_shape st e) as (new & Hnew & Hlen1 & Hall1).
    exists (new ++ stat). rewrite Heq, Hnew, <- app_assoc. split; [reflexivity|].
    split; [rewrite length_app; lia|].
    apply Forall_app. split.
    + eapply Forall_impl; [exact Hall1|]. intros x (H1 & H2 & H3).
      split; [exact H1|]. exists e. split; [left|]. split; assumption.
    + eapply Forall_impl; [exact Hall|]. intros x (H1 & e' & He' & H2 & H3).
      split; [exact H1|]. exists e'. split; [right; exact He'|]. split; assumption.
Qed.

Lemma match_fold_shape (ms : list Match) (st : State) :
  exists lex, entities (fold_left step_match ms st) = entities st ++ lex
    /\ (length lex <= length ms)%nat
    /\ Forall (fun x => type x = py "LegalTerm"
                 /\ exists mt, mt ∈ ms /\ entity x = m_group mt) lex.
Proof.
  revert st. induction ms as [|mt ms IH]; intros st; simpl.
  - exists []. rewrite app_nil_r. split; [reflexivity|]. split; [simpl; lia|constructor].
  - destruct (IH (step_match st mt)) as (lex & Heq & Hlen & Hall).
    assert (Hstep : exists new, entities (step_match st mt) = entities st ++ new
              /\ (length new <= 1)%nat
              /\ Forall (fun x => type x = py "LegalTerm" /\ entity x = m_group mt) new).
    { unfold step_match. destruct (negb _); simpl.
      - eexists [_]. split; [reflexivity|]. split; [simpl; lia|].
        constructor; [|constructor]. split; reflexivity.
      - exists []. rewrite app_nil_r. split; [reflexivity|]. split; [simpl; lia|constructor]. }
    destruct Hstep as (new & Hnew & Hlen1 & Hall1).
    exists (new ++ lex). rewrite Heq, Hnew, <- app_assoc. split; [reflexivity|].
    split; [rewrite length_app; lia|].
    apply Forall_app. split.
    + eapply Forall_impl; [exact Hall1|]. intros x (H1 & H2).
      split; [exact H1|]. exists mt. split; [left|exact H2].
    + eapply Forall_impl; [exact Hall|]. intros x (H1 & m' & Hm' & H2).
      split; [exact H1|]. exists m'. split; [right; exact Hm'|exact H2].
Qed.








Lemma t_spans_erase env nlp txt :
  processed_spans (run_extract env nlp txt) = t_spans (t_run_extract env nlp txt).
Proof. rewrite <- trace_erasure. reflexivity. Qed.

Lemma dropped_or_kept (ms : list Match) (t : TState) (mt : Match) :
  mt ∈ ms ->
  lexicon_entry mt ∈ accepted (fold_left t_step_match ms t)
  \/ exists q, q ∈ t_spans (fold_left t_step_match ms t)
               /\ overlaps (match_span mt) q = true.
Proof.
  revert t. induction ms as [|m0 ms IH]; intros t Hin; [inversion Hin|].
  apply elem_of_cons in Hin as [->|Hin]; [|apply IH, Hin].
  simpl. unfold t_step_match at 2 4.
  destruct (overlap_flag (match_span m0) (t_spans t)) eqn:Hf; simpl.
  - right. apply overlap_flag_true in Hf as (q & Hq & Ho). exists q. split; [|exact Ho].
    apply (t_spans_fold_match_mono ms t), Hq.
  - left. apply accepted_fold_match_mono. simpl. apply elem_of_app. right. left.
Qed.

(** X16: a regex match is never dropped without cause: either it is
    accepted, or it overlaps a span that is recorded when [extract_entities]
    returns. *)
Theorem dropped_match_overlaps (env : Env) (nlp : Model) (txt : pystr) (mt : Match) :
  mt ∈ lexicon_candidates env txt ->
  lexicon_entry mt ∈ accepted (t_run_extract env nlp txt)
  \/ exists q, q ∈ processed_spans (run_extract env nlp txt)
               /\ overlaps (match_span mt) q = true.
Proof.
  intros Hin. rewrite t_spans_erase. unfold t_run_extract. apply dropped_or_kept, Hin.
Qed.

Lemma dropped_match_overlaps_witness :
  trust_match ∈ lexicon_candidates ex_env ex_text
  /\ (lexicon_entry trust_match ∈ accepted (t_run_extract ex_env ex_nlp ex_text)
      \/ exists q, q ∈ processed_spans (run_extract ex_env ex_nlp ex_text)
                   /\ overlaps (match_span trust_match) q = true).
Proof.
  assert (Hin : trust_match ∈ lexicon_candidates ex_env ex_text).
  { apply list_elem_of_In. vm_compute. left. reflexivity. }
  split; [exact Hin|].
  exact (dropped_match_overlaps ex_env ex_nlp ex_text trust_match Hin).
Defined.

End NERShapeFacts.

(** * Facts about the grouping by type *)

Module GroupingFacts.
Import Grouping.

Lemma groups_get_None (d : Groups) (k : pystr) :
  groups_get d k = None <-> k ∉ map fst d.
Proof.
  induction d as [|[k' l] d IH]; simpl.
  - split; [intros _ H; inversion H|reflexivity].
  - destruct (decide (k' = k)) as [->|Hne].
    + split; [discriminate|]. intros H. exfalso. apply H. left.
    + rewrite IH. rewrite not_elem_of_cons. split; [intros H; split; [congruence|exact H]|tauto].
Qed.

Lemma groups_append_keys (d : Groups) (k x : pystr) :
  map fst (groups_append d k x) = map fst d.
Proof.
  induction d as [|[k' l] d IH]; simpl; [reflexivity|].
  destruct (decide (k' = k)); simpl; [reflexivity|]. rewrite IH. reflexivity.
Qed.

Lemma groups_get_append (d : Groups) (k x k0 : pystr) :
  groups_get (groups_append d k x) k0
  = if decide (k = k0) then (fun l => l ++ [x]) <$> groups_get d k0 else groups_get d k0.
Proof.
  induction d as [|[k' l] d IH]; simpl.
  - destruct (decide (k = k0)); reflexivity.
  - destruct (decide (k' = k)) as [->|Hne]; simpl.
    + destruct (decide (k = k0)) as [->|Hne0]; reflexivity.
    + destruct (decide (k' = k0)) as [->|Hne0].
      * destruct (decide (k = k0)); [congruence|reflexivity].
      * exact IH.
Qed.

Lemma groups_get_snoc (d : Groups) (k k0 : pystr) (l : list pystr) :
  k ∉ map fst d ->
  groups_get (d ++ [(k, l)]) k0
  = match groups_get d k0 with
    | Some l0 => Some l0
    | None => if decide (k = k0) then Some l else None
    end.
Proof.
  induction d as [|[k' l'] d IH]; intros Hk; simpl.
  - reflexivity.
  - simpl in Hk. apply not_elem_of_cons in Hk as [Hne Hk].
    destruct (decide (k' = k0)); [reflexivity|]. apply IH, Hk.
Qed.

Lemma group_step_get (d : Groups) (e : Entity) (k : pystr) :
  groups_get (group_step d e) k
  = if decide (type e = k)
    then Some (default [] (groups_get d k) ++ [entity e])
    else groups_get d k.
Proof.
  unfold group_step. rewrite groups_get_append.
  destruct (decide (type e = k)) as [<-|Hne].
  - destruct (decide (type e ∈ map fst d)) as [Hin|Hin].
    + destruct (groups_get d (type e)) eqn:Hg; [reflexivity|].
      apply groups_get_None in Hg. contradiction.
    + rewrite groups_get_snoc by exact Hin.
      apply groups_get_None in Hin. rewrite Hin.
      destruct (decide (type e = type e)); [reflexivity|congruence].
  - destruct (decide (type e ∈ map fst d)) as [Hin|Hin]; [reflexivity|].
    rewrite groups_get_snoc by exact Hin.
    destruct (groups_get d k); [reflexivity|].
    destruct (decide (type e = k)); [congruence|reflexivity].
Qed.

Lemma fold_group_get (es : list Entity) (d : Groups) (k : pystr) :
  groups_get (fold_left group_step es d) k
  = match groups_get d k, texts_of_type k es with
    | None, [] => None
    | o, l => Some (default [] o ++ l)
    end.
Proof.
  revert d. induction es as [|e es IH]; intros d.
  - simpl. destruct (groups_get d k); simpl; [rewrite app_nil_r|]; reflexivity.
  - simpl fold_left. rewrite IH, group_step_get. unfold texts_of_type.
    rewrite filter_cons. destruct (decide (type e = k)) as [Hk|Hk].
    + simpl. rewrite <- app_assoc. simpl.
      destruct (groups_get d k); reflexivity.
    + reflexivity.
Qed.

(** X17: after the grouping loop the list under a type holds exactly the
    texts of the entities of that type, in the order of the input; a type
    that no entity has is not a key. *)
Theorem group_by_type_get (entities : list Entity) (k : pystr) :
  groups_get (group_by_type entities) k
  = match texts_of_type k entities with
    | [] => None
    | l => Some l
    end.
Proof.
  unfold group_by_type. rewrite fold_group_get. simpl.
  destruct (texts_of_type k entities); reflexivity.
Qed.
Lemma group_step_keys (d : Groups) (e : Entity) :
  map fst (group_step d e)
  = if decide (type e ∈ map fst d) then map fst d else map fst d ++ [type e].
Proof.
  unfold group_step. rewrite groups_append_keys.
  destruct (decide (type e ∈ map fst d)); [reflexivity|]. rewrite map_app. reflexivity.
Qed.

Lemma fold_group_keys (es : list Entity) (d : Groups) :
  map fst (fold_left group_step es d)
  = map fst d ++ filter (fun y => y ∉ map fst d) (first_occurrences (map type es)).
Proof.
  revert d. induction es as [|e es IH]; intros d.
  - simpl. rewrite app_nil_r. reflexivity.
  - simpl fold_left. rewrite IH, group_step_keys. simpl map. simpl first_occurrences.
    rewrite filter_cons.
    destruct (decide (type e ∈ map fst d)) as [Hin|Hin].
    + destruct (decide (type e ∉ map fst d)); [contradiction|].
      f_equal. rewrite list_filter_filter. apply list_filter_iff. intros y.
      split; [|tauto]. intros Hy. split; [exact Hy|]. intros ->. contradiction.
    + destruct (decide (type e ∉ map fst d)); [|contradiction].
      rewrite <- app_assoc. simpl. f_equal. f_equal.
      rewrite list_filter_filter. apply list_filter_iff. intros y.
      rewrite elem_of_app, list_elem_of_singleton. tauto.
Qed.

Lemma group_keys_first_occurrences (entities : list Entity) :
  map fst (group_by_type entities) = first_occurrences (map type entities).
Proof.
  unfold group_by_type. rewrite fold_group_keys. simpl.
  induction (first_occurrences (map type entities)) as [|y l IH]; [reflexivity|].
  rewrite filter_cons_True by (intros H; inversion H). rewrite IH. reflexivity.
Qed.

(** X18: the keys come in the order in which the types first occur in the
    input, each once. *)
Theorem group_by_type_keys (entities : list Entity) :
  map fst (group_by_type entities) = first_occurrences (map type entities).
Proof. apply group_keys_first_occurrences. Qed.
End GroupingFacts.

Module ScriptsFacts.
Import NER NERFacts NERShape NERShapeFacts Grouping GroupingFacts Scripts.

Lemma first_occurrences_subset (l : list pystr) (x : pystr) :
  x ∈ first_occurrences l -> x ∈ l.
Proof.
  induction l as [|y l IH]; simpl; [intros H; inversion H|].
  intros H. apply elem_of_cons in H as [->|H]; [left|].
  apply list_elem_of_filter in H as [_ H]. right. apply IH, H.
Qed.

Lemma first_occurrences_constant (l : list pystr) (x : pystr) :
  Forall (fun y => y = x) l -> first_occurrences l = [] \/ first_occurrences l = [x].
Proof.
  intros H. destruct H as [|y l -> Hl]; [left; reflexivity|]. right. simpl. f_equal.
  induction Hl as [|y l -> _ IH]; [reflexivity|]. simpl.
  rewrite filter_cons_False by (intros Hne; apply Hne; reflexivity).
  rewrite IH. reflexivity.
Qed.

(** X19: the groups that the scripts print after [extract_entities] are
    keyed by Name, Date and MonetaryAmount in the order in which these first
    occur, followed, when a legal term was accepted, by LegalTerm: the legal
    terms always come last, and no other key occurs. *)
Theorem legal_terms_grouped_last (env : Env) (nlp : Model) (txt : pystr) (groups : Groups) :
  spacy_load env (py "en_core_web_lg") = Ok nlp ->
  grouped_entities env txt = Ok groups ->
  exists ks,
    Forall (fun k => k ∈ statistical_types) ks
    /\ (map fst groups = ks \/ map fst groups = ks ++ [py "LegalTerm"]).
Proof.
  intros Hload. unfold grouped_entities, extract_entities. rewrite Hload. simpl.
  intros [= <-]. unfold run_extract. rewrite lexicon_pass_flat.
  destruct (ner_pass_shape (nlp txt) init) as (stat & Hs & _ & Hsall).
  destruct (match_fold_shape (lexicon_candidates env txt) (ner_pass (nlp txt) init))
    as (lex & Hl & _ & Hlall).
  simpl in Hs. rewrite Hl, Hs.
  unfold group_by_type. rewrite fold_left_app, fold_group_keys.
  fold (group_by_type stat). rewrite group_keys_first_occurrences.
  exists (first_occurrences (map type stat)).
  assert (Hks : Forall (fun k => k ∈ statistical_types) (first_occurrences (map type stat))).
  { apply Forall_forall. intros k Hk. apply first_occurrences_subset in Hk.
    apply list_elem_of_fmap in Hk as (x & -> & Hx).
    rewrite Forall_forall in Hsall. apply (Hsall x Hx). }
  split; [exact Hks|].
  assert (Hconst : Forall (fun y => y = py "LegalTerm") (map type lex)).
  { apply Forall_forall. intros y Hy. apply list_elem_of_fmap in Hy as (x & -> & Hx).
    rewrite Forall_forall in Hlall. apply (Hlall x Hx). }
  destruct (first_occurrences_constant _ _ Hconst) as [-> | ->].
  - left. rewrite filter_nil, app_nil_r. reflexivity.
  - right. rewrite filter_cons_True; [reflexivity|].
    intros Hin. rewrite Forall_forall in Hks. specialize (Hks _ Hin).
    revert Hks. apply (bool_decide_eq_true_1 _). vm_compute. reflexivity.
Qed.

Lemma legal_terms_grouped_last_witness :
  spacy_load ex_env (py "en_core_web_lg") = Ok ex_nlp
  /\ exists groups ks,
       grouped_entities ex_env ex_text = Ok groups
       /\ Forall (fun k => k ∈ statistical_types) ks
       /\ (map fst groups = ks \/ map fst groups = ks ++ [py "LegalTerm"]).
Proof.
  split; [reflexivity|].
  destruct (grouped_entities ex_env ex_text) as [groups|e] eqn:Hrun;
    [|vm_compute in Hrun; discriminate].
  destruct (legal_terms_grouped_last ex_env ex_nlp ex_text groups eq_refl Hrun)
    as (ks & Hks & Hkeys).
  exists groups, ks. split; [reflexivity|]. split; assumption.
Defined.
End ScriptsFacts.

(** * Facts about the language model's reply *)

Module LLMFacts.
Import Json JsonFacts LLM.

Lemma find_from_spec (c : N) (s : pystr) (i : Z) :
  ((c ∉ s) /\ find_from c s i = -1)
  \/ exists pre post, s = pre ++ c :: post /\ (c ∉ pre)
       /\ find_from c s i = i + Z.of_nat (length pre).
Proof.
  revert i. induction s as [|x s IH]; intros i; simpl.
  - left. split; [intros H; inversion H|reflexivity].
  - destruct (N.eqb_spec x c) as [->|Hne].
    + right. exists [], s. split; [reflexivity|]. split; [intros H; inversion H|simpl; lia].
    + destruct (IH (i + 1)) as [[Hnot Hf]|(pre & post & -> & Hpre & Hf)].
      * left. split; [|exact Hf]. intros H.
        apply elem_of_cons in H as [H|H]; [congruence|contradiction].
      * right. exists (x :: pre), post. split; [reflexivity|].
        split; [intros H; apply elem_of_cons in H as [H|H]; [congruence|contradiction]|].
        rewrite Hf. simpl length. lia.
Qed.




Lemma rfind_from_absent (c : N) (s : pystr) (i best : Z) :
  c ∉ s -> rfind_from c s i best = best.
Proof.
  revert i best. induction s as [|x s IH]; intros i best H; simpl; [reflexivity|].
  apply not_elem_of_cons in H as [Hne H]. rewrite IH by exact H.
  destruct (N.eqb_spec x c); [congruence|reflexivity].
Qed.


Lemma rfind_absent (c : N) (s : pystr) : c ∉ s -> rfind c s = -1.
Proof. apply rfind_from_absent. Qed.


Lemma scan_bracket_is_list (fuel : nat) (s rest : pystr) (v : PyObj) :
  scan_once fuel (91%N :: s) = Ok (v, rest) -> exists l, v = PList l.
Proof.
  destruct fuel as [|fuel]; [discriminate|]. cbn [scan_once].
  change (91 =? 34)%N with false. change (91 =? 123)%N with false.
  change (91 =? 91)%N with true. cbv iota.
  destruct (skip_ws s) as [|c1 r1]; [discriminate|].
  destruct (c1 =? 93)%N; [intros [= <- _]; eauto|].
  destruct (array_items fuel (c1 :: r1)) as [[values rest']|]; simpl; [|discriminate].
  intros [= <- _]. eauto.
Qed.

Lemma loads_bracket_is_list (s : pystr) (v : PyObj) :
  loads (91%N :: s) = Ok v -> exists l, v = PList l.
Proof.
  unfold loads. rewrite bool_decide_eq_false_2 by (simpl; intros [=]).
  change (skip_ws (91%N :: s)) with (91%N :: s).
  destruct (scan_once (S (length (91%N :: s))) (91%N :: s)) as [[obj rest]|] eqn:Hscan;
    simpl; [|discriminate].
  destruct (skip_ws rest); [|discriminate]. intros [= <-].
  eapply scan_bracket_is_list, Hscan.
Qed.

(** X20: whatever the API call did and whatever text the model sent back,
    [extract_entities] returns a list: no reply makes it return another JSON
    value or raise an exception of its own.  (The other outcome of the
    statement is a reply that the decoder of this development does not read:
    it gives up on JSON numbers.) *)
Theorem extract_entities_gives_a_list (completion : Result pystr) :
  (exists l, extract_entities completion = Ok (PList l))
  \/ extract_entities completion = Raise Unmodelled.
Proof.
  unfold extract_entities. destruct completion as [result|e]; [|left; eauto].
  destruct (find_from_spec 91%N result 0) as [[Hnot Hf]|(pre & post & -> & Hpre & Hf)];
    fold (find 91%N result) in Hf || fold (find 91%N (pre ++ 91%N :: post)) in Hf; rewrite Hf.
  - simpl. left. eauto.
  - destruct ((_ >=? 0) && _) eqn:Hcond; [|left; eauto].
    apply andb_true_iff in Hcond as [_ Hgt]. apply Z.gtb_lt in Hgt.
    unfold slice. rewrite Z.add_0_l, Nat2Z.id, drop_app_length.
    destruct (Z.to_nat _) as [|n] eqn:Hn; [lia|]. cbn [take].
    destruct (loads _) as [v|e] eqn:Hloads.
    + left. apply loads_bracket_is_list in Hloads as (l & ->). eauto.
    + destruct e; eauto.
Qed.




(** X22: a reply without an opening bracket, or without a closing one, gives
    the empty list. *)
Theorem extract_entities_without_brackets (result : pystr) :
  91%N ∉ result \/ 93%N ∉ result ->
  extract_entities (Ok result) = Ok (PList []).
Proof.
  intros H. unfold extract_entities. destruct H as [H|H].
  - destruct (find_from_spec 91%N result 0) as [[_ Hf]|(pre & post & -> & _ & _)].
    + fold (find 91%N result) in Hf. rewrite Hf. reflexivity.
    + exfalso. apply H. apply elem_of_app. right. left.
  - rewrite (rfind_absent _ _ H).
    destruct (find_from_spec 91%N result 0) as [[_ Hf]|(pre & post & -> & _ & Hf)];
      unfold find; rewrite Hf; [reflexivity|].
    assert ((-1 + 1 >? 0 + Z.of_nat (length pre)) = false) as ->
      by (rewrite Z.gtb_ltb; apply Z.ltb_ge; lia).
    rewrite andb_false_r. reflexivity.
Qed.

Lemma extract_entities_without_brackets_witness :
  (91%N ∉ reply_prefix)
  /\ extract_entities (Ok reply_prefix) = Ok (PList []).
Proof.
  assert (Hp : 91%N ∉ reply_prefix) by (apply (bool_decide_eq_true_1 _); vm_compute; reflexivity).
  split; [exact Hp|].
  exact (extract_entities_without_brackets reply_prefix (or_introl Hp)).
Defined.

End LLMFacts.

(** * Facts about text recognition and the DOCX writer *)

Module StrFacts.
Import Evaluation Str.

Lemma drop_while_head (f : N -> bool) (s : pystr) (c : N) (r : pystr) :
  drop_while f s = c :: r -> f c = false.
Proof.
  induction s as [|x s IH]; simpl; [discriminate|].
  destruct (f x) eqn:Hx; [exact IH|]. intros [= -> _]. exact Hx.
Qed.

Lemma drop_while_stop (f : N -> bool) (c : N) (r : pystr) :
  f c = false -> drop_while f (c :: r) = c :: r.
Proof. intros H. simpl. rewrite H. reflexivity. Qed.

Lemma drop_while_idem (f : N -> bool) (s : pystr) :
  drop_while f (drop_while f s) = drop_while f s.
Proof.
  destruct (drop_while f s) as [|c r] eqn:H; [reflexivity|].
  apply drop_while_stop. eapply drop_while_head, H.
Qed.

Lemma rstrip_idem (s : pystr) : rstrip (rstrip s) = rstrip s.
Proof. unfold rstrip. rewrite reverse_involutive, drop_while_idem. reflexivity. Qed.

Lemma drop_while_snoc_keep (f : N -> bool) (s : pystr) (c : N) :
  f c = false -> exists r, drop_while f (s ++ [c]) = r ++ [c].
Proof.
  intros Hc. induction s as [|x s IH]; simpl.
  - rewrite Hc. exists []. reflexivity.
  - destruct (f x); [exact IH|]. exists (x :: s). reflexivity.
Qed.

(** Stripping on the right keeps a first character that is not a blank. *)
Lemma rstrip_keeps_head (c : N) (r : pystr) :
  is_space c = false -> exists r', rstrip (c :: r) = c :: r'.
Proof.
  intros Hc. unfold rstrip. rewrite reverse_cons.
  destruct (drop_while_snoc_keep is_space (reverse r) c Hc) as (x & ->).
  rewrite reverse_app. simpl. eauto.
Qed.

Lemma strip_idem (s : pystr) : strip (strip s) = strip s.
Proof.
  unfold strip. destruct (lstrip s) as [|c r] eqn:Hl; [reflexivity|].
  apply drop_while_head in Hl.
  destruct (rstrip_keeps_head c r Hl) as (r' & Hr). unfold lstrip. rewrite Hr.
  rewrite (drop_while_stop _ _ _ Hl), <- Hr. apply rstrip_idem.
Qed.

Lemma strip_ends (s : pystr) :
  match strip s with
  | [] => True
  | c :: r => is_space c = false /\ is_space (List.last r c) = false
  end.
Proof.
  unfold strip. destruct (lstrip s) as [|c r] eqn:Hl; [exact I|].
  apply drop_while_head in Hl.
  destruct (rstrip_keeps_head c r Hl) as (r' & Hr). rewrite Hr. split; [exact Hl|].
  unfold rstrip in Hr.
  destruct (drop_while is_space (reverse (c :: r))) as [|z w] eqn:Hd.
  - discriminate.
  - apply drop_while_head in Hd. rewrite reverse_cons in Hr.
    assert (Hlast : List.last (reverse w ++ [z]) c = z) by apply List.last_last.
    rewrite Hr in Hlast. destruct r' as [|y r']; simpl in Hlast |- *.
    + subst z. exact Hd.
    + rewrite <- Hlast in Hd. destruct r'; exact Hd.
Qed.

End StrFacts.

Module OCRFacts.
Import Str OCR StrFacts.

(** X23: the text that [process_image] (or [process_image_with_config])
    returns has no blank at either end, so the callers' [text.strip()] leaves
    it as it is. *)
Theorem process_image_is_stripped (env : OcrEnv) (image_path lang : pystr)
    (config : option pystr) (txt : pystr) :
  process_image_with_config env image_path config lang = inr txt ->
  strip txt = txt
  /\ match txt with
     | [] => True
     | c :: r => is_space c = false /\ is_space (List.last r c) = false
     end.
Proof.
  unfold process_image_with_config. destruct (negb _); [discriminate|].
  destruct (recognize env image_path lang config) as [raw|]; [|discriminate].
  intros [= <-]. split; [apply strip_idem|apply strip_ends].
Qed.

Lemma process_image_is_stripped_witness :
  process_image ex_ocr scan_path (py "eng")
    = inr (py "TRUST AGREEMENT" ++ [10]%N ++ py "John Smith")
  /\ strip (py "TRUST AGREEMENT" ++ [10]%N ++ py "John Smith")
     = py "TRUST AGREEMENT" ++ [10]%N ++ py "John Smith".
Proof.
  assert (H : process_image ex_ocr scan_path (py "eng")
              = inr (py "TRUST AGREEMENT" ++ [10]%N ++ py "John Smith"))
    by (vm_compute; reflexivity).
  split; [exact H|].
  exact (proj1 (process_image_is_stripped ex_ocr scan_path (py "eng") None _ H)).
Defined.
End OCRFacts.

Module DocxFacts.
Import Json Evaluation Str StrFacts Docx.

Lemma drop_while_split (f : N -> bool) (s : pystr) :
  exists w, s = w ++ drop_while f s /\ forallb f w = true.
Proof.
  induction s as [|c s (w & E & Hw)]; simpl.
  - exists []. split; reflexivity.
  - destruct (f c) eqn:Hc.
    + exists (c :: w). simpl. rewrite Hc, Hw. split; [congruence|reflexivity].
    + exists []. split; reflexivity.
Qed.

Lemma forallb_reverse (f : N -> bool) (w : pystr) :
  forallb f w = true -> forallb f (reverse w) = true.
Proof.
  rewrite !forallb_forall. intros H x Hx. apply H.
  apply list_elem_of_In. apply list_elem_of_In in Hx.
  rewrite elem_of_reverse in Hx. exact Hx.
Qed.

(** Stripping removes a run of blanks at each end and nothing else. *)
Lemma strip_split (s : pystr) :
  exists w1 w2, s = w1 ++ strip s ++ w2
    /\ forallb is_space w1 = true /\ forallb is_space w2 = true.
Proof.
  destruct (drop_while_split is_space s) as (w1 & E1 & H1).
  destruct (drop_while_split is_space (reverse (lstrip s))) as (w2 & E2 & H2).
  exists w1, (reverse w2). split; [|split; [exact H1|apply forallb_reverse, H2]].
  unfold strip, rstrip. rewrite <- reverse_app, <- E2, reverse_involutive. exact E1.
Qed.

Lemma visible_blanks (w : pystr) : forallb is_space w = true -> visible w = [].
Proof.
  induction w as [|c w IH]; simpl; [reflexivity|].
  intros H. apply andb_true_iff in H as [Hc Hw]. rewrite Hc. simpl. exact (IH Hw).
Qed.

Lemma visible_app (a b : pystr) : visible (a ++ b) = visible a ++ visible b.
Proof. apply List.filter_app. Qed.

Lemma visible_strip (s : pystr) : visible (strip s) = visible s.
Proof.
  destruct (strip_split s) as (w1 & w2 & E & H1 & H2).
  rewrite E at 2. rewrite !visible_app, (visible_blanks w1 H1), (visible_blanks w2 H2).
  simpl. rewrite app_nil_r. reflexivity.
Qed.


Lemma visible_split_lines (s : pystr) :
  visible (concat (split_lines s)) = visible s.
Proof.
  induction s as [|c r IH]; [reflexivity|]. cbn [split_lines].
  destruct (N.eqb_spec c 10) as [->|Hc].
  - cbn. exact IH.
  - destruct (split_lines r) as [|l ls]; unfold visible in *; simpl in *;
      destruct (negb (is_space c)); simpl; congruence.
Qed.

Lemma visible_map_strip (ls : list pystr) :
  visible (concat (map strip ls)) = visible (concat ls).
Proof.
  induction ls as [|l ls IH]; [reflexivity|].
  cbn [map concat]. rewrite !visible_app, visible_strip, IH. reflexivity.
Qed.

Lemma add_line_text (u : Unicode) (line : pystr) :
  p_text (add_line u line) = strip line.
Proof.
  unfold add_line. case_bool_decide as He; [symmetry; exact He|].
  destruct (isupper u (strip line)); [reflexivity|].
  destruct (_ || _); reflexivity.
Qed.

Lemma split_lines_length (s : pystr) :
  length (split_lines s) = S (count_occ N.eq_dec s 10%N).
Proof.
  induction s as [|c r IH]; [reflexivity|]. cbn [split_lines count_occ].
  destruct (N.eqb_spec c 10) as [->|Hc].
  - destruct (N.eq_dec 10%N 10%N); [|contradiction]. simpl. rewrite IH. reflexivity.
  - destruct (N.eq_dec c 10%N); [contradiction|].
    destruct (split_lines r); simpl in *; [discriminate|exact IH].
Qed.


(** X24: the paragraphs of the DOCX document hold every character of the
    text that is not a blank, in order: only blanks are lost. *)
Theorem docx_keeps_the_visible_text (u : Unicode) (document_text : pystr) :
  visible (concat (map p_text (paragraphs u document_text))) = visible document_text.
Proof.
  unfold paragraphs. rewrite map_map.
  rewrite (map_ext _ strip (add_line_text u)).
  rewrite visible_map_strip, visible_split_lines. apply visible_strip.
Qed.

(** X25: the document gets one paragraph more than the stripped text has
    newlines; so an empty or blank text still gives one (empty) paragraph. *)
Theorem docx_paragraph_count (u : Unicode) (document_text : pystr) :
  length (paragraphs u document_text)
  = S (count_occ N.eq_dec (strip document_text) 10%N).
Proof. unfold paragraphs. rewrite length_map. apply split_lines_length. Qed.

End DocxFacts.
